(** * ctmslib: the TI COFF image reader ([coff.py]) and [dataops.align]

    A shallow embedding of the Python sources.  Python integers are [Z],
    byte buffers are [list byte], [str] values are represented by the
    [string] of their UTF-8 bytes, and the mutable [bytearray] objects the
    program shares by reference live in a store indexed by locations. *)

From Stdlib Require Import ZArith Lia.
From Stdlib.Strings Require Import Byte.
From stdpp Require Import gmap strings list fin_maps.

Open Scope Z_scope.

(** ** Python runtime: exceptions, the object store, a state/error monad *)

(** The payload of the [MemoryError]s that [coff.py] raises, one
    constructor per message. *)
Inductive coff_error : Type :=
  | NotCoffImage
  | BadMagic (expected actual : Z)
  | BadTarget
  | BadSectionTable
  | BadSymbolTable
  | BadStringTable
  | SectionNoName (idx : Z)
  | SectionBadData (idx : Z)
  | DuplicateSection (name : string).

Inductive exn : Type :=
  | MemoryError (e : coff_error)
  | IndexError
  | KeyError (key : string)
  | UnicodeDecodeError
  | StructError
  | DanglingRef.

(** References to [bytearray] objects. *)
Definition loc := positive.
Abbreviation heap := (gmap loc (list byte)).

(** Pure code that may raise. *)
Definition Result (A : Type) : Type := exn + A.

(** Code that reads or mutates the store and may raise. *)
Definition M (A : Type) : Type := heap -> Result (A * heap).

Definition ret {A} (a : A) : M A := fun h => inr (a, h).
Definition raise {A} (e : exn) : M A := fun _ => inl e.
Definition bind {A B} (m : M A) (k : A -> M B) : M B :=
  fun h => match m h with
           | inl e => inl e
           | inr (a, h') => k a h'
           end.
Definition lift {A} (r : Result A) : M A :=
  fun h => match r with inl e => inl e | inr a => inr (a, h) end.

Notation "'let!' x ':=' m 'in' k" := (bind m (fun x => k))
  (at level 10, x pattern, m at level 100, k at level 200).

(** [data[...]] on a live object: the current contents of the bytearray. *)
Definition read (l : loc) : M (list byte) :=
  fun h => match h !! l with
           | Some bs => inr (bs, h)
           | None => inl DanglingRef
           end.

(** A new bytearray object. *)
Definition alloc (bs : list byte) : M loc :=
  fun h => let l := fresh (dom h) in inr (l, <[l := bs]> h).

Definition write (l : loc) (bs : list byte) : M unit :=
  fun h => match h !! l with
           | Some _ => inr (tt, <[l := bs]> h)
           | None => inl DanglingRef
           end.

Fixpoint for_each {A} (body : A -> M unit) (xs : list A) : M unit :=
  match xs with
  | [] => ret tt
  | x :: rest => let! _ := body x in for_each body rest
  end.

(** ** Python sequences: [len], indexing, slicing and slice assignment *)

Definition byte_val (b : byte) : Z := Z.of_N (Byte.to_N b).

Definition len {A} (l : list A) : Z := Z.of_nat (length l).

(** The byte of an integer in [0, 255], as [int.to_bytes()] gives it. *)
Definition byte_of (n : Z) : byte := default x00 (Byte.of_N (Z.to_N n)).

(** Normalisation of one slice bound against a length (step 1). *)
Definition adjust_index (n i : Z) : Z :=
  if i <? 0 then Z.max 0 (i + n) else Z.min i n.

(** [l[start:stop]] *)
Definition py_slice {A} (l : list A) (start stop : Z) : list A :=
  let a := adjust_index (len l) start in
  let b := adjust_index (len l) stop in
  take (Z.to_nat (b - a)) (drop (Z.to_nat a) l).

(** [l[start:stop] = v] on a bytearray: the slice is replaced, the object
    is resized when the lengths differ. *)
Definition py_setslice {A} (l : list A) (start stop : Z) (v : list A) : list A :=
  let a := adjust_index (len l) start in
  let b := Z.max a (adjust_index (len l) stop) in
  take (Z.to_nat a) l ++ v ++ drop (Z.to_nat b) l.

(** [l[k]] for an integer [k]: negative indices count from the end,
    anything else out of range is an [IndexError]. *)
Definition py_getitem {A} (l : list A) (k : Z) : Result A :=
  let k' := if k <? 0 then k + len l else k in
  if (0 <=? k') && (k' <? len l)
  then match l !! Z.to_nat k' with
       | Some x => inr x
       | None => inl IndexError
       end
  else inl IndexError.

Definition py_len (l : loc) : M Z :=
  let! bs := read l in ret (len bs).

(** [dst[start:stop] = src] where both are objects of the store. *)
Definition setslice (dst : loc) (start stop : Z) (src : loc) : M unit :=
  let! v := read src in
  let! d := read dst in
  write dst (py_setslice d start stop v).

(** [buf[i] = b] *)
Definition setitem (buf : loc) (i : Z) (b : byte) : M unit :=
  let! d := read buf in
  let i' := if i <? 0 then i + len d else i in
  if (0 <=? i') && (i' <? len d)
  then write buf (<[Z.to_nat i' := b]> d)
  else raise IndexError.

(** ** [struct.unpack] with a little-endian, unpadded format *)

Inductive fmt_code : Type := H | I.

Definition code_size (c : fmt_code) : nat :=
  match c with H => 2%nat | I => 4%nat end.

Definition calcsize (fmt : list fmt_code) : nat :=
  foldr (fun c n => (code_size c + n)%nat) 0%nat fmt.

Fixpoint le_uint (bs : list byte) : Z :=
  match bs with
  | [] => 0
  | b :: rest => byte_val b + 256 * le_uint rest
  end.

Fixpoint unpack_fields (fmt : list fmt_code) (bs : list byte) : list Z :=
  match fmt with
  | [] => []
  | c :: fmt' =>
      le_uint (take (code_size c) bs) :: unpack_fields fmt' (drop (code_size c) bs)
  end.

Definition struct_unpack (fmt : list fmt_code) (bs : list byte) : Result (list Z) :=
  if decide (length bs = calcsize fmt)
  then inr (unpack_fields fmt bs)
  else inl StructError.

(** ** [bytes.decode()]: strict UTF-8 *)

Definition in_range (lo hi : Z) (b : byte) : bool :=
  (lo <=? byte_val b) && (byte_val b <=? hi).

Definition cont (b : byte) : bool := in_range 0x80 0xBF b.

Fixpoint utf8_valid (bs : list byte) : bool :=
  match bs with
  | [] => true
  | b0 :: r0 =>
      if in_range 0x00 0x7F b0 then utf8_valid r0
      else
        match r0 with
        | [] => false
        | b1 :: r1 =>
            if in_range 0xC2 0xDF b0 then cont b1 && utf8_valid r1
            else
              match r1 with
              | [] => false
              | b2 :: r2 =>
                  if in_range 0xE0 0xE0 b0
                  then in_range 0xA0 0xBF b1 && cont b2 && utf8_valid r2
                  else if in_range 0xE1 0xEC b0 || in_range 0xEE 0xEF b0
                  then cont b1 && cont b2 && utf8_valid r2
                  else if in_range 0xED 0xED b0
                  then in_range 0x80 0x9F b1 && cont b2 && utf8_valid r2
                  else
                    match r2 with
                    | [] => false
                    | b3 :: r3 =>
                        if in_range 0xF0 0xF0 b0
                        then in_range 0x90 0xBF b1 && cont b2 && cont b3 && utf8_valid r3
                        else if in_range 0xF1 0xF3 b0
                        then cont b1 && cont b2 && cont b3 && utf8_valid r3
                        else if in_range 0xF4 0xF4 b0
                        then in_range 0x80 0x8F b1 && cont b2 && cont b3 && utf8_valid r3
                        else false
                    end
              end
        end
  end.

(** A [str] is represented by the string of its UTF-8 bytes, so decoding
    only has to check that the bytes are well formed. *)
Definition decode (bs : list byte) : Result string :=
  if utf8_valid bs
  then inr (String.string_of_list_byte bs)
  else inl UnicodeDecodeError.

(** ** [dataops.py] *)

Module dataops.

Definition align (value align : Z) : Z :=
  if align =? 0 then value
  else
    let rem := value mod align in
    if rem =? 0 then align
    else value + align - rem.

(** [extend_to] on a bytearray.  [print(dlen)] appends a line to standard
    output, which is threaded as [out]; [(pad & 0xFF).to_bytes() * extra]
    is [extra] copies of one byte; [data.extend] grows the object in
    place, and the object itself is returned. *)
Definition extend_to (data : loc) (dlen pad : Z) (out : list Z) : M (loc * list Z) :=
  let out := out ++ [dlen] in
  let! buf := read data in
  let extra := dlen - len buf in
  if extra >? 0
  then
    let! _ := write data (buf ++ replicate (Z.to_nat extra) (byte_of (Z.land pad 0xFF))) in
    ret (data, out)
  else ret (data, out).

End dataops.

(** ** [coff.py] *)

Module CoffSectionFlags.

Definition TEXT : Z := 0x20.
Definition DATA : Z := 0x40.
Definition BSS : Z := 0x80.
Definition ALLOC_MASK : Z := Z.lor (Z.lor TEXT DATA) BSS.

Definition is_allocated (self : Z) : bool :=
  negb (Z.land self ALLOC_MASK =? 0).

End CoffSectionFlags.

Module CoffSection.

Definition ENT_SIZE : Z := 48.

Record t : Type := mk {
  _name : string;
  _idx : Z;
  _paddr : Z;
  _vaddr : Z;
  _daddr : Z;
  _dlen : Z;
  _flags : Z;
  _data : loc
}.

Definition _load (name : option string) (idx : Z) (ent : list Z)
    (data : loc) (blen : Z) : M t :=
  match name with
  | None => raise (MemoryError (SectionNoName idx))
  | Some name =>
      let! paddr := lift (py_getitem ent 2) in
      let! vaddr := lift (py_getitem ent 3) in
      let! dlen := lift (py_getitem ent 4) in
      let! daddr := lift (py_getitem ent 5) in
      let! flags := lift (py_getitem ent 10) in
      let dlen := if CoffSectionFlags.is_allocated flags then dlen * blen else dlen in
      let! n := py_len data in
      if daddr + dlen >? n
      then raise (MemoryError (SectionBadData idx))
      else ret {| _name := name; _idx := idx; _paddr := paddr; _vaddr := vaddr;
                  _flags := flags; _daddr := daddr; _dlen := dlen; _data := data |}
  end.

(** The [data] property: [self._data] is the image's bytearray, and a
    slice of a bytearray is a new bytearray object. *)
Definition data (self : t) : M loc :=
  let! buf := read (_data self) in
  alloc (py_slice buf (_daddr self) (_daddr self + _dlen self)).

End CoffSection.

Module CoffSectionTable.

Record t : Type := mk {
  _sects : list CoffSection.t;
  _tab : gmap string CoffSection.t
}.

(** The loop of [_load]: [tab] is the dict built so far. *)
Fixpoint _load_loop (sects : list CoffSection.t) (tab : gmap string CoffSection.t)
    : Result (gmap string CoffSection.t) :=
  match sects with
  | [] => inr tab
  | sect :: rest =>
      let name := CoffSection._name sect in
      match tab !! name with
      | Some _ => inl (MemoryError (DuplicateSection name))
      | None => _load_loop rest (<[name := sect]> tab)
      end
  end.

Definition _load (sects : list CoffSection.t) : Result t :=
  match _load_loop sects ∅ with
  | inl e => inl e
  | inr tab => inr {| _sects := sects; _tab := tab |}
  end.

Definition __len__ (self : t) : Z := len (_sects self).

(** The key of [__getitem__] is an [int] or a [str]. *)
Inductive key : Type :=
  | KInt (k : Z)
  | KStr (s : string).

Definition __getitem__ (self : t) (k : key) : Result CoffSection.t :=
  match k with
  | KInt i => py_getitem (_sects self) i
  | KStr s =>
      match _tab self !! s with
      | Some sect => inr sect
      | None => inl (KeyError s)
      end
  end.

(** What iterating the table yields, in order. *)
Definition __iter__ (self : t) : list CoffSection.t := _sects self.

End CoffSectionTable.

Module CoffSymbol.

Definition ENT_SIZE : Z := 18.

End CoffSymbol.

Module CoffImage.

Definition MAGIC : Z := 0x0108.
Definition HDR_ENT_SIZE : Z := 50.
Definition NAME_ENT_SIZE : Z := 8.

Record t : Type := mk {
  _tid : Z;
  _entry : Z;
  _nsects : Z;
  _strtab_addr : Z;
  _blen : Z;
  _data : loc;
  _sectab : option CoffSectionTable.t
}.

Definition _blens : gmap Z Z := <[0x9D := 2]> (<[0x98 := 2]> ∅).

(** ["<2H3I5H6I"] *)
Definition hdr_fmt : list fmt_code :=
  replicate 2 H ++ replicate 3 I ++ replicate 5 H ++ replicate 6 I.

(** ['<12I'] *)
Definition ent_fmt : list fmt_code := replicate 12 I.

Definition _load (data : loc) : M t :=
  let! dview := read data in
  let dlen := len dview in
  if dlen <? HDR_ENT_SIZE
  then raise (MemoryError NotCoffImage)
  else
    let! hdr := lift (struct_unpack hdr_fmt (py_slice dview 0 HDR_ENT_SIZE)) in
    let nsects := hdr !!! 1%nat in
    let symtab_addr := hdr !!! 3%nat in
    let nsyms := hdr !!! 4%nat in
    let tid := hdr !!! 7%nat in
    let magic := hdr !!! 8%nat in
    let entry := hdr !!! 13%nat in
    let sectab_end := HDR_ENT_SIZE + nsects * CoffSection.ENT_SIZE in
    let strtab_addr := symtab_addr + nsyms * CoffSymbol.ENT_SIZE in
    let strtab_len := dlen - strtab_addr in
    let strtab_end := strtab_addr + strtab_len in
    if negb (magic =? MAGIC)
    then raise (MemoryError (BadMagic MAGIC magic))
    else if tid =? 0
    then raise (MemoryError BadTarget)
    else if sectab_end >? dlen
    then raise (MemoryError BadSectionTable)
    else if (sectab_end >? symtab_addr) || (strtab_addr >? dlen)
    then raise (MemoryError BadSymbolTable)
    else if (strtab_len <=? 0) || (strtab_end >? dlen)
    then raise (MemoryError BadStringTable)
    else ret {| _tid := tid; _nsects := nsects; _entry := entry;
                _strtab_addr := strtab_addr; _data := data; _sectab := None;
                _blen := default 1 (_blens !! tid) |}.

Fixpoint str_len (data : list byte) : nat :=
  match data with
  | [] => 0%nat
  | b :: rest => if Byte.eqb b x00 then 0%nat else S (str_len rest)
  end.

Definition _get_str (data : list byte) : Result string :=
  let slen := Z.of_nat (str_len data) in
  decode (py_slice data 0 slen).

Definition _get_ent_name (self : t) (data : list byte) (addr : Z)
    (has_str : bool) (str_offs : Z) : Result (option string) :=
  let max := NAME_ENT_SIZE in
  let addr := if has_str then _strtab_addr self + str_offs else addr in
  let max := if has_str then len data - addr else max in
  if max >? 0
  then match _get_str (py_slice data addr (addr + max)) with
       | inl e => inl e
       | inr s => inr (Some s)
       end
  else inr None.

(** The loop of [_load_sect_tab] over the remaining indices of the
    range; [addr] and [sects] are the loop's variables. *)
Fixpoint _load_sects (self : t) (idxs : list Z) (addr : Z)
    (sects : list CoffSection.t) : M (list CoffSection.t) :=
  match idxs with
  | [] => ret sects
  | idx :: rest =>
      let! data := read (_data self) in
      let! ent := lift (struct_unpack ent_fmt
                          (py_slice data addr (addr + CoffSection.ENT_SIZE))) in
      let! name := lift (_get_ent_name self data addr
                           (bool_decide (ent !!! 0%nat = 0)) (ent !!! 1%nat)) in
      let addr := addr + CoffSection.ENT_SIZE in
      let! sect := CoffSection._load name idx ent (_data self) (_blen self) in
      _load_sects self rest addr (sects ++ [sect])
  end.

Definition _load_sect_tab (self : t) : M CoffSectionTable.t :=
  let! sects := _load_sects self (seqZ 0 (_nsects self)) HDR_ENT_SIZE [] in
  lift (CoffSectionTable._load sects).

Definition set_sectab (self : t) (tab : CoffSectionTable.t) : t :=
  {| _tid := _tid self; _entry := _entry self; _nsects := _nsects self;
     _strtab_addr := _strtab_addr self; _blen := _blen self;
     _data := _data self; _sectab := Some tab |}.

(** The [sectab] property; the image object is updated in place, so the
    updated image is returned with the table. *)
Definition sectab (self : t) : M (CoffSectionTable.t * t) :=
  match _sectab self with
  | None =>
      let! tab := _load_sect_tab self in
      ret (tab, set_sectab self tab)
  | Some tab => ret (tab, self)
  end.

(** The body of the loop of [copy_sects]. *)
Definition copy_sect (addr end_addr : Z) (dst : loc) (sect : CoffSection.t) : M unit :=
  let paddr := CoffSection._paddr sect in
  let vaddr := CoffSection._vaddr sect in
  let dlen := CoffSection._dlen sect in
  if (paddr >=? addr) && (paddr + dlen <=? end_addr)
  then
    let! src := CoffSection.data sect in
    setslice dst (paddr - addr) (paddr - addr + dlen) src
  else if (vaddr >=? addr) && (vaddr + dlen <=? end_addr)
  then
    let! src := CoffSection.data sect in
    setslice dst (vaddr - addr) (vaddr - addr + dlen) src
  else ret tt.

Definition copy_sects (self : t) (addr : Z) (dst : loc) : M t :=
  let! n := py_len dst in
  let end_addr := addr + n in
  let! (tab, self) := sectab self in
  let! _ := for_each (copy_sect addr end_addr dst) (CoffSectionTable.__iter__ tab) in
  ret self.

(** [from_file]: [contents] are the bytes [read_bytes()] returned; they
    are copied into a new bytearray, over which the image is built. *)
Definition from_file (contents : list byte) : M t :=
  let! data := alloc contents in
  _load data.

Definition target_id (self : t) : Z := _tid self.

Definition entry (self : t) : Z := _entry self.

End CoffImage.

(** ** Reading the file layout

    The field of [w] bytes at byte offset [off] of a buffer, and the
    quantities the header checks are about, named as in [_load]. *)

Definition field_at (buf : list byte) (off w : nat) : Z :=
  le_uint (take w (drop off buf)).

Definition hdr_nsects (buf : list byte) : Z := field_at buf 2 2.
Definition hdr_symtab_addr (buf : list byte) : Z := field_at buf 8 4.
Definition hdr_nsyms (buf : list byte) : Z := field_at buf 12 4.
Definition hdr_tid (buf : list byte) : Z := field_at buf 20 2.
Definition hdr_magic (buf : list byte) : Z := field_at buf 22 2.
Definition hdr_entry (buf : list byte) : Z := field_at buf 38 4.

Definition sectab_end (buf : list byte) : Z := 50 + hdr_nsects buf * 48.
Definition strtab_addr (buf : list byte) : Z := hdr_symtab_addr buf + hdr_nsyms buf * 18.
Definition strtab_len (buf : list byte) : Z := len buf - strtab_addr buf.
Definition strtab_end (buf : list byte) : Z := strtab_addr buf + strtab_len buf.

(** The multiplier table of the specification: 2 for the two wide
    targets, 1 for every other target id. *)
Definition multiplier (tid : Z) : Z :=
  if decide (tid = 0x9D \/ tid = 0x98) then 2 else 1.

(** Running a computation and keeping only its value. *)
Definition run {A} (m : M A) (h : heap) : Result A :=
  match m h with inl e => inl e | inr (a, _) => inr a end.

(** ** Building concrete images *)

Fixpoint le_bytes (w : nat) (n : Z) : list byte :=
  match w with
  | O => []
  | S w' => byte_of (n mod 256) :: le_bytes w' (n / 256)
  end.

Fixpoint pack (fmt : list fmt_code) (vals : list Z) : list byte :=
  match fmt, vals with
  | c :: fmt', v :: vals' => le_bytes (code_size c) v ++ pack fmt' vals'
  | _, _ => []
  end.

Definition mk_hdr (nsects symtab_addr nsyms tid magic entry : Z) : list byte :=
  pack CoffImage.hdr_fmt
    [0; nsects; 0; symtab_addr; nsyms; 0; 0; tid; magic; 0; 0; 0; 0; entry; 0; 0].

(** A section entry with an inline name (8 bytes, NUL padded). *)
Definition mk_ent (name : list Z) (paddr vaddr rawlen daddr flags : Z) : list byte :=
  (byte_of <$> name) ++
  pack (replicate 10 I) [paddr; vaddr; rawlen; daddr; 0; 0; 0; 0; flags; 0].


(** The errors of section decoding and of the section table, as opposed
    to those of the header checks. *)
Definition is_section_error (e : exn) : Prop :=
  match e with
  | MemoryError (SectionNoName _)
  | MemoryError (SectionBadData _)
  | MemoryError (DuplicateSection _)
  | UnicodeDecodeError
  | StructError => True
  | _ => False
  end.

(** The same image object over another buffer reference. *)
Definition with_data (img : CoffImage.t) (data : loc) : CoffImage.t :=
  {| CoffImage._tid := CoffImage._tid img;
     CoffImage._entry := CoffImage._entry img;
     CoffImage._nsects := CoffImage._nsects img;
     CoffImage._strtab_addr := CoffImage._strtab_addr img;
     CoffImage._blen := CoffImage._blen img;
     CoffImage._data := data;
     CoffImage._sectab := CoffImage._sectab img |}.


(** ** Vocabulary of the properties *)

(** The image [_load] builds once every check has passed. *)
Definition image_of (data : loc) (buf : list byte) : CoffImage.t :=
  {| CoffImage._tid := hdr_tid buf;
     CoffImage._entry := hdr_entry buf;
     CoffImage._nsects := hdr_nsects buf;
     CoffImage._strtab_addr := strtab_addr buf;
     CoffImage._blen := default 1 (CoffImage._blens !! hdr_tid buf);
     CoffImage._data := data;
     CoffImage._sectab := None |}.

(** The names of a list of sections, in order. *)
Definition names (sects : list CoffSection.t) : list string :=
  CoffSection._name <$> sects.

(** Field [k] of the twelve 32-bit fields of the entry at offset [addr]. *)
Definition ent_field (buf : list byte) (addr : Z) (k : nat) : Z :=
  field_at buf (Z.to_nat addr + 4 * k) 4.

(** What it means for [s] to be the section decoded from the entry at
    offset [addr] under index [idx]. *)
Record section_of_entry (self : CoffImage.t) (buf : list byte) (idx addr : Z)
    (s : CoffSection.t) : Prop := {
  soe_extent : addr + 48 <= len buf;
  soe_idx : CoffSection._idx s = idx;
  soe_name :
    CoffImage._get_ent_name self buf addr
      (bool_decide (ent_field buf addr 0 = 0)) (ent_field buf addr 1)
    = inr (Some (CoffSection._name s));
  soe_paddr : CoffSection._paddr s = ent_field buf addr 2;
  soe_vaddr : CoffSection._vaddr s = ent_field buf addr 3;
  soe_daddr : CoffSection._daddr s = ent_field buf addr 5;
  soe_flags : CoffSection._flags s = ent_field buf addr 10;
  soe_dlen :
    CoffSection._dlen s =
      if CoffSectionFlags.is_allocated (ent_field buf addr 10)
      then ent_field buf addr 4 * CoffImage._blen self
      else ent_field buf addr 4;
  soe_data : CoffSection._data s = CoffImage._data self;
  soe_inside : CoffSection._daddr s + CoffSection._dlen s <= len buf
}.

(** Where the loop body copies a section: at its physical offset when the
    physical range fits the window, else at its virtual offset when that
    one fits, else nowhere. *)
Definition copy_offset (addr end_addr : Z) (s : CoffSection.t) : option Z :=
  if (CoffSection._paddr s >=? addr)
     && (CoffSection._paddr s + CoffSection._dlen s <=? end_addr)
  then Some (CoffSection._paddr s - addr)
  else if (CoffSection._vaddr s >=? addr)
          && (CoffSection._vaddr s + CoffSection._dlen s <=? end_addr)
  then Some (CoffSection._vaddr s - addr)
  else None.

(** A section whose data extent lies inside a buffer of [n] bytes. *)
Definition extent_ok (n : Z) (s : CoffSection.t) : Prop :=
  0 <= CoffSection._daddr s /\ 0 <= CoffSection._dlen s /\
  CoffSection._daddr s + CoffSection._dlen s <= n.

(** The bytes of a section in the current contents of the image buffer. *)
Definition section_bytes (buf : list byte) (s : CoffSection.t) : list byte :=
  py_slice buf (CoffSection._daddr s) (CoffSection._daddr s + CoffSection._dlen s).


(** A buffer padded with the byte [p] up to [n] bytes; the buffer itself
    when it already has [n] bytes or more. *)
Definition padded (buf : list byte) (n : Z) (p : byte) : list byte :=
  buf ++ replicate (Z.to_nat (n - len buf)) p.
(** The smallest valid image: a header, no sections, no symbols and a
    string table of one byte. *)
Definition img_min : list byte :=
  mk_hdr 0 50 0 1 0x0108 0x1000 ++ [x00].

(** A header whose symbol table is declared at offset 49, inside the
    50 header bytes. *)
Definition img_symtab_overlap : list byte :=
  mk_hdr 0 49 0 1 0x0108 0x1000 ++ [x00].

(** Two sections, as [CoffSection._load] would build them. *)
Definition sect_text : CoffSection.t :=
  {| CoffSection._name := ".text"; CoffSection._idx := 0;
     CoffSection._paddr := 0x80000; CoffSection._vaddr := 0x80000;
     CoffSection._daddr := 146; CoffSection._dlen := 4;
     CoffSection._flags := 0x20; CoffSection._data := 1%positive |}.

Definition sect_data : CoffSection.t :=
  {| CoffSection._name := ".data"; CoffSection._idx := 1;
     CoffSection._paddr := 0x80004; CoffSection._vaddr := 0x80004;
     CoffSection._daddr := 150; CoffSection._dlen := 2;
     CoffSection._flags := 0x40; CoffSection._data := 1%positive |}.

(** An image for a wide target (id 0x9D) with two sections, [.text] of
    two words and [.data] of one word, their data at offsets 146 and 150,
    and a one-byte string table at offset 152. *)
Definition img_two : list byte :=
  mk_hdr 2 152 0 0x9D 0x0108 0x80000 ++
  mk_ent [46; 116; 101; 120; 116; 0; 0; 0] 0x80000 0x80000 2 146 0x20 ++
  mk_ent [46; 100; 97; 116; 97; 0; 0; 0] 0x80004 0x80004 1 150 0x40 ++
  (byte_of <$> [0x11; 0x22; 0x33; 0x44; 0x55; 0x66]) ++ [x00].

(** The same image with the second entry renamed [.text]. *)
Definition img_dup : list byte :=
  mk_hdr 2 152 0 0x9D 0x0108 0x80000 ++
  mk_ent [46; 116; 101; 120; 116; 0; 0; 0] 0x80000 0x80000 2 146 0x20 ++
  mk_ent [46; 116; 101; 120; 116; 0; 0; 0] 0x80004 0x80004 1 150 0x40 ++
  (byte_of <$> [0x11; 0x22; 0x33; 0x44; 0x55; 0x66]) ++ [x00].

(** Valid headers followed by one malformed entry: a name offset far
    beyond the string table, an inline name that is not UTF-8, and a data
    length beyond the end of the buffer. *)
Definition img_noname : list byte :=
  mk_hdr 1 98 0 1 0x0108 0 ++
  mk_ent [0; 0; 0; 0; 0xFF; 0xFF; 0; 0] 0 0 0 0 0 ++ [x00].

Definition img_undecodable : list byte :=
  mk_hdr 1 98 0 1 0x0108 0 ++
  mk_ent [0xFF; 0xFE; 0; 0; 0; 0; 0; 0] 0 0 0 0 0 ++ [x00].

Definition img_baddata : list byte :=
  mk_hdr 1 98 0 1 0x0108 0 ++
  mk_ent [46; 120; 0; 0; 0; 0; 0; 0] 0 0 0x1000 98 0x20 ++ [x00].

(** A store with [img_two] at location 1 and a destination of eight
    bytes 0xFF at location 2. *)
Definition store_two : heap :=
  <[2%positive := replicate 8 xff]> {[1%positive := img_two]}.

(** An image with a single section [.dbg] that is not allocated (flags
    0): two bytes AA BB at offset 98, physical and virtual address 0x10. *)
Definition img_dbg : list byte :=
  mk_hdr 1 100 0 1 0x0108 0x1000 ++
  mk_ent [46; 100; 98; 103; 0; 0; 0; 0] 0x10 0x10 2 98 0 ++
  [xaa; xbb; x00].

(** [img_dbg] at location 1 and a destination of three bytes 0xFF at
    location 2. *)
Definition store_dbg : heap :=
  <[2%positive := [xff; xff; xff]]> {[1%positive := img_dbg]}.

(** A buffer of four bytes at location 1, and an entry describing two
    bytes of data at offset 1. *)
Definition store_four : heap := {[1%positive := [x01; x02; x03; x04]]}.

Definition ent_four : list Z := [0; 0; 0; 0; 2; 1; 0; 0; 0; 0; 0; 0].

(** The section of [img_dbg], and the section of [ent_four] over the
    buffer of [store_four]. *)
Definition sect_dbg : CoffSection.t :=
  {| CoffSection._name := ".dbg"; CoffSection._idx := 0;
     CoffSection._paddr := 0x10; CoffSection._vaddr := 0x10;
     CoffSection._daddr := 98; CoffSection._dlen := 2;
     CoffSection._flags := 0; CoffSection._data := 1%positive |}.

Definition sect_four : CoffSection.t :=
  {| CoffSection._name := ".s"; CoffSection._idx := 0;
     CoffSection._paddr := 0; CoffSection._vaddr := 0;
     CoffSection._daddr := 1; CoffSection._dlen := 2;
     CoffSection._flags := 0; CoffSection._data := 1%positive |}.

(** * Properties *)

(** ** Sequences and the monad *)

Lemma len_nonneg {A} (l : list A) : 0 <= len l.
Proof. unfold len. lia. Qed.

Lemma py_slice_inside {A} (l : list A) (a b : Z) :
  0 <= a -> a <= b -> b <= len l ->
  py_slice l a b = take (Z.to_nat (b - a)) (drop (Z.to_nat a) l).
Proof.
  intros Ha Hab Hb. unfold py_slice, adjust_index.
  destruct (Z.ltb_spec a 0); [lia|].
  destruct (Z.ltb_spec b 0); [lia|].
  rewrite !Z.min_l by lia. reflexivity.
Qed.

Lemma py_slice_length {A} (l : list A) (a b : Z) :
  0 <= a -> a <= b -> b <= len l ->
  len (py_slice l a b) = b - a.
Proof.
  intros Ha Hab Hb. rewrite py_slice_inside by lia.
  unfold len in *. rewrite length_take, length_drop. lia.
Qed.

Lemma py_slice_prefix {A} (l : list A) (n : Z) :
  0 <= n -> n <= len l -> py_slice l 0 n = take (Z.to_nat n) l.
Proof.
  intros. rewrite py_slice_inside by lia.
  rewrite Z.sub_0_r. reflexivity.
Qed.

Lemma read_lookup (h : heap) (l : loc) (bs : list byte) :
  h !! l = Some bs -> read l h = inr (bs, h).
Proof. intros E. unfold read. rewrite E. reflexivity. Qed.

Lemma byte_val_bounds (b : byte) : 0 <= byte_val b < 256.
Proof.
  unfold byte_val. pose proof (Byte.to_N_bounded b). lia.
Qed.

Lemma le_uint_nonneg (bs : list byte) : 0 <= le_uint bs.
Proof.
  induction bs as [|b bs IH]; simpl; [lia|].
  pose proof (byte_val_bounds b). lia.
Qed.

Lemma field_at_nonneg (buf : list byte) (off w : nat) : 0 <= field_at buf off w.
Proof. apply le_uint_nonneg. Qed.

(** A field read from the first [n] bytes is the field of the whole buffer. *)
Lemma field_at_take (buf : list byte) (n off w : nat) :
  (off + w <= n)%nat -> field_at (take n buf) off w = field_at buf off w.
Proof.
  intros Hle. unfold field_at. f_equal.
  rewrite skipn_firstn_comm, take_take. f_equal. lia.
Qed.

Lemma unpack_fields_cons (c : fmt_code) (fmt : list fmt_code) (bs : list byte) :
  unpack_fields (c :: fmt) bs =
  field_at bs 0 (code_size c) :: unpack_fields fmt (drop (code_size c) bs).
Proof. reflexivity. Qed.

Lemma field_at_drop (bs : list byte) (k off w : nat) :
  field_at (drop k bs) off w = field_at bs (k + off) w.
Proof. unfold field_at. rewrite drop_drop. reflexivity. Qed.

(** ** The header *)

(** Unpacking the 50 header bytes puts each field where the format says. *)
Lemma unpack_header (buf : list byte) :
  50 <= len buf ->
  exists hdr,
    struct_unpack CoffImage.hdr_fmt (py_slice buf 0 CoffImage.HDR_ENT_SIZE) = inr hdr /\
    hdr !!! 1%nat = hdr_nsects buf /\
    hdr !!! 3%nat = hdr_symtab_addr buf /\
    hdr !!! 4%nat = hdr_nsyms buf /\
    hdr !!! 7%nat = hdr_tid buf /\
    hdr !!! 8%nat = hdr_magic buf /\
    hdr !!! 13%nat = hdr_entry buf.
Proof.
  intros Hlen. unfold CoffImage.HDR_ENT_SIZE.
  rewrite py_slice_prefix by lia.
  unfold struct_unpack.
  assert (Hl : length (take (Z.to_nat 50) buf) = calcsize CoffImage.hdr_fmt).
  { rewrite length_take. unfold len in Hlen.
    change (calcsize CoffImage.hdr_fmt) with 50%nat. lia. }
  rewrite decide_True by exact Hl.
  eexists. split; [reflexivity|].
  change (Z.to_nat 50) with 50%nat.
  unfold CoffImage.hdr_fmt. cbn [replicate app].
  repeat rewrite unpack_fields_cons.
  repeat rewrite field_at_drop.
  cbn [code_size Nat.add].
  unfold hdr_nsects, hdr_symtab_addr, hdr_nsyms, hdr_tid, hdr_magic, hdr_entry.
  cbn [lookup_total list_lookup_total].
  repeat split; apply field_at_take; lia.
Qed.

(** [_load] as a chain of tests on the fields of the buffer. *)
Lemma load_chain (h : heap) (data : loc) (buf : list byte) :
  h !! data = Some buf ->
  CoffImage._load data h =
    if len buf <? 50 then inl (MemoryError NotCoffImage)
    else if negb (hdr_magic buf =? 0x0108)
    then inl (MemoryError (BadMagic 0x0108 (hdr_magic buf)))
    else if hdr_tid buf =? 0 then inl (MemoryError BadTarget)
    else if sectab_end buf >? len buf then inl (MemoryError BadSectionTable)
    else if (sectab_end buf >? hdr_symtab_addr buf) || (strtab_addr buf >? len buf)
    then inl (MemoryError BadSymbolTable)
    else if (strtab_len buf <=? 0) || (strtab_end buf >? len buf)
    then inl (MemoryError BadStringTable)
    else inr (image_of data buf, h).
Proof.
  intros Hbuf. unfold CoffImage._load, bind.
  rewrite (read_lookup _ _ _ Hbuf).
  change CoffImage.HDR_ENT_SIZE with 50 at 1.
  destruct (Z.ltb_spec (len buf) 50) as [Hlt|Hge]; [reflexivity|].
  destruct (unpack_header buf Hge) as (hdr & -> & E1 & E3 & E4 & E7 & E8 & E13).
  unfold lift, raise, ret.
  rewrite E1, E3, E4, E7, E8, E13.
  unfold image_of, strtab_end, strtab_len, sectab_end. unfold strtab_addr.
  unfold CoffImage.MAGIC, CoffImage.HDR_ENT_SIZE, CoffSection.ENT_SIZE,
    CoffSymbol.ENT_SIZE.
  repeat (match goal with
          | |- context [if ?c then _ else _] => destruct c; [reflexivity|]
          end).
  reflexivity.
Qed.

Lemma le_uint_bound (bs : list byte) : le_uint bs < 256 ^ len bs.
Proof.
  induction bs as [|b bs IH]; [reflexivity|].
  cbn [le_uint]. unfold len in *. cbn [length].
  rewrite Nat2Z.inj_succ, Z.pow_succ_r by lia.
  pose proof (byte_val_bounds b). lia.
Qed.

Lemma field_at_bound (buf : list byte) (off w : nat) :
  0 <= field_at buf off w < 256 ^ Z.of_nat w.
Proof.
  split; [apply field_at_nonneg|].
  unfold field_at.
  eapply Z.lt_le_trans; [apply le_uint_bound|].
  apply Z.pow_le_mono_r; [lia|].
  unfold len. rewrite length_take. lia.
Qed.

Lemma field_at_u16 (buf : list byte) (off : nat) : 0 <= field_at buf off 2 < 2 ^ 16.
Proof. apply (field_at_bound buf off 2). Qed.

Lemma field_at_u32 (buf : list byte) (off : nat) : 0 <= field_at buf off 4 < 2 ^ 32.
Proof. apply (field_at_bound buf off 4). Qed.

(** ** The name-keyed table of [CoffSectionTable._load] *)

Section table_loop.

Implicit Types (sects : list CoffSection.t) (tab : gmap string CoffSection.t).

(** A successful loop met no name twice, nor a name of the initial dict. *)
Lemma load_loop_nodup sects tab tab' :
  CoffSectionTable._load_loop sects tab = inr tab' ->
  NoDup (names sects) /\ (forall n, n ∈ names sects -> tab !! n = None).
Proof.
  revert tab. induction sects as [|s rest IH]; intros tab Hok; cbn in *.
  - split; [constructor|]. intros n Hn. inversion Hn.
  - destruct (tab !! CoffSection._name s) eqn:Hs; [discriminate|].
    destruct (IH _ Hok) as [Hnd Hfresh].
    split.
    + constructor; [|exact Hnd].
      intros Hin. specialize (Hfresh _ Hin).
      rewrite lookup_insert_eq in Hfresh. discriminate.
    + intros n Hn. apply elem_of_cons in Hn as [->|Hn]; [exact Hs|].
      specialize (Hfresh _ Hn).
      destruct (decide (CoffSection._name s = n)) as [<-|Hne].
      * rewrite lookup_insert_eq in Hfresh. discriminate.
      * rewrite lookup_insert_ne in Hfresh by exact Hne. exact Hfresh.
Qed.

(** The dict of a successful loop: every section under its name, the
    initial entries elsewhere. *)
Lemma load_loop_lookup sects tab tab' n :
  CoffSectionTable._load_loop sects tab = inr tab' ->
  tab' !! n =
    match list_find (fun s => CoffSection._name s = n) sects with
    | Some (_, s) => Some s
    | None => tab !! n
    end.
Proof.
  revert tab. induction sects as [|s rest IH]; intros tab Hok; cbn in *.
  - congruence.
  - destruct (tab !! CoffSection._name s) eqn:Hs; [discriminate|].
    destruct (load_loop_nodup _ _ _ Hok) as [_ Hfresh].
    rewrite (IH _ Hok). clear IH.
    destruct (decide (CoffSection._name s = n)) as [<-|Hne].
    + destruct (list_find _ rest) as [[i s']|] eqn:Hf; cbn.
      * apply list_find_Some in Hf as (Hi & Hn & _).
        assert (Hin : CoffSection._name s ∈ names rest).
        { unfold names. apply list_elem_of_fmap. exists s'.
          split; [congruence|]. eapply list_elem_of_lookup_2. exact Hi. }
        specialize (Hfresh _ Hin). rewrite lookup_insert_eq in Hfresh.
        discriminate.
      * apply lookup_insert_eq.
    + destruct (list_find _ rest) as [[i s']|] eqn:Hf; cbn; [reflexivity|].
      apply lookup_insert_ne. exact Hne.
Qed.

(** A failing loop stops at the first section whose name was met before,
    and names it. *)
Lemma load_loop_error sects tab e :
  CoffSectionTable._load_loop sects tab = inl e ->
  exists (j : nat) (s : CoffSection.t),
    sects !! j = Some s /\
    e = MemoryError (DuplicateSection (CoffSection._name s)) /\
    (CoffSection._name s ∈ names (take j sects) \/
     is_Some (tab !! CoffSection._name s)) /\
    NoDup (names (take j sects)) /\
    (forall n, n ∈ names (take j sects) -> tab !! n = None).
Proof.
  revert tab. induction sects as [|s rest IH]; intros tab Herr; cbn in *.
  - discriminate.
  - destruct (tab !! CoffSection._name s) eqn:Hs.
    + exists 0%nat, s. cbn. split; [reflexivity|]. split; [congruence|].
      split; [right; eauto|]. split; [constructor|].
      intros n Hn. inversion Hn.
    + destruct (IH _ Herr) as (j & s' & Hj & He & Hseen & Hnd & Hfresh).
      exists (S j), s'. cbn. split; [exact Hj|]. split; [exact He|].
      assert (Hnotin : CoffSection._name s ∉ names (take j rest)).
      { intros Hin. specialize (Hfresh _ Hin).
        rewrite lookup_insert_eq in Hfresh. discriminate. }
      split; [|split].
      * destruct Hseen as [Hin|Hin].
        { left. apply elem_of_cons. right. exact Hin. }
        destruct (decide (CoffSection._name s = CoffSection._name s')) as [E|Hne].
        { left. apply elem_of_cons. left. congruence. }
        rewrite lookup_insert_ne in Hin by exact Hne.
        right. exact Hin.
      * constructor; assumption.
      * intros n Hn. apply elem_of_cons in Hn as [->|Hn]; [exact Hs|].
        specialize (Hfresh _ Hn).
        destruct (decide (CoffSection._name s = n)) as [<-|Hne].
        { contradiction. }
        rewrite lookup_insert_ne in Hfresh by exact Hne. exact Hfresh.
Qed.

(** [_load] succeeds exactly on lists without a repeated name. *)
Lemma table_load_ok_iff sects :
  (exists t, CoffSectionTable._load sects = inr t) <-> NoDup (names sects).
Proof.
  unfold CoffSectionTable._load. split.
  - intros [t Ht].
    destruct (CoffSectionTable._load_loop sects ∅) as [e|tab] eqn:Hl; [discriminate|].
    apply (load_loop_nodup _ _ _ Hl).
  - intros Hnd.
    destruct (CoffSectionTable._load_loop sects ∅) as [e|tab] eqn:Hl; [|eauto].
    exfalso.
    destruct (load_loop_error _ _ _ Hl) as (j & s & Hj & _ & Hseen & _ & _).
    destruct Hseen as [Hin|[x Hx]]; [|rewrite lookup_empty in Hx; discriminate].
    rewrite <- (take_drop j sects) in Hnd. unfold names in Hnd.
    rewrite fmap_app in Hnd. apply NoDup_app in Hnd as (_ & Hdisj & _).
    apply (Hdisj _ Hin).
    apply list_elem_of_fmap. exists s. split; [reflexivity|].
    apply list_elem_of_lookup. exists 0%nat.
    rewrite lookup_drop, Nat.add_0_r. exact Hj.
Qed.

Lemma table_load_sects sects t :
  CoffSectionTable._load sects = inr t -> CoffSectionTable._sects t = sects.
Proof.
  unfold CoffSectionTable._load.
  destruct (CoffSectionTable._load_loop sects ∅); [discriminate|].
  intros [= <-]. reflexivity.
Qed.

(** The dict of a constructed table holds a name exactly when a section
    of the list bears it. *)
Lemma table_load_tab sects t n :
  CoffSectionTable._load sects = inr t ->
  CoffSectionTable._tab t !! n =
    snd <$> list_find (fun s => CoffSection._name s = n) sects.
Proof.
  unfold CoffSectionTable._load.
  destruct (CoffSectionTable._load_loop sects ∅) as [e|tab] eqn:Hl; [discriminate|].
  intros [= <-]. cbn.
  rewrite (load_loop_lookup _ _ _ n Hl).
  destruct (list_find _ sects) as [[i s]|]; [reflexivity|].
  apply lookup_empty.
Qed.

End table_loop.

(** ** Section entries *)

Lemma ent_field_bounds (buf : list byte) (addr : Z) (k : nat) :
  0 <= ent_field buf addr k < 2 ^ 32.
Proof. apply field_at_u32. Qed.

(** Unpacking an entry succeeds exactly when its 48 bytes lie in the
    buffer, and then yields the twelve fields. *)
Lemma unpack_entry (buf : list byte) (addr : Z) :
  0 <= addr ->
  match struct_unpack CoffImage.ent_fmt (py_slice buf addr (addr + CoffSection.ENT_SIZE)) with
  | inr ent =>
      addr + 48 <= len buf /\ length ent = 12%nat /\
      forall k, (k < 12)%nat -> ent !!! k = ent_field buf addr k
  | inl e => e = StructError /\ len buf < addr + 48
  end.
Proof.
  intros Ha. unfold CoffSection.ENT_SIZE, struct_unpack.
  change (calcsize CoffImage.ent_fmt) with 48%nat.
  destruct (Z.le_gt_cases (addr + 48) (len buf)) as [Hin|Hout].
  - rewrite py_slice_inside by lia.
    replace (addr + 48 - addr) with 48 by lia. change (Z.to_nat 48) with 48%nat.
    rewrite decide_True.
    2:{ rewrite length_take, length_drop. unfold len in Hin. lia. }
    split; [exact Hin|].
    unfold CoffImage.ent_fmt. cbn [replicate].
    split; [reflexivity|].
    repeat rewrite unpack_fields_cons.
    repeat rewrite field_at_drop.
    cbn [code_size Nat.add].
    intros k Hk. unfold ent_field.
    do 12 (destruct k as [|k];
           [cbn [lookup_total list_lookup_total];
            rewrite field_at_take by lia; rewrite field_at_drop;
            f_equal; lia|]).
    lia.
  - rewrite decide_False; [split; [reflexivity | lia]|].
    unfold py_slice, adjust_index.
    destruct (Z.ltb_spec addr 0); [lia|].
    destruct (Z.ltb_spec (addr + 48) 0); [lia|].
    rewrite length_take, length_drop.
    pose proof (len_nonneg buf). unfold len in *. lia.
Qed.

(** Indexing a tuple inside its bounds. *)
Lemma py_getitem_in {A} `{Inhabited A} (l : list A) (k : nat) :
  (k < length l)%nat -> py_getitem l (Z.of_nat k) = inr (l !!! k).
Proof.
  intros Hk. unfold py_getitem, len.
  destruct (Z.ltb_spec (Z.of_nat k) 0); [lia|].
  destruct (Z.leb_spec 0 (Z.of_nat k)); [|lia].
  destruct (Z.ltb_spec (Z.of_nat k) (Z.of_nat (length l))); [|lia].
  cbn [andb]. rewrite Nat2Z.id.
  destruct (lookup_lt_is_Some_2 l k Hk) as [x Hx].
  rewrite Hx. rewrite (list_lookup_total_correct _ _ _ Hx). reflexivity.
Qed.

Lemma py_getitem_out {A} (l : list A) (k : nat) :
  (length l <= k)%nat -> py_getitem l (Z.of_nat k) = inl IndexError.
Proof.
  intros Hk. unfold py_getitem, len.
  destruct (Z.ltb_spec (Z.of_nat k) 0); [lia|].
  destruct (Z.ltb_spec (Z.of_nat k) (Z.of_nat (length l))); [lia|].
  rewrite andb_false_r. reflexivity.
Qed.

(** [CoffSection._load] on a live buffer and an entry of at least eleven
    fields: the two checks, in order, and the section built when both
    pass.  The store is left as it was. *)
Lemma section_load_eq (name : option string) (idx : Z) (ent : list Z)
    (data : loc) (blen : Z) (h : heap) (buf : list byte) :
  h !! data = Some buf ->
  (11 <= length ent)%nat ->
  CoffSection._load name idx ent data blen h =
    match name with
    | None => inl (MemoryError (SectionNoName idx))
    | Some nm =>
        let dlen := if CoffSectionFlags.is_allocated (ent !!! 10%nat)
                    then ent !!! 4%nat * blen else ent !!! 4%nat in
        if ent !!! 5%nat + dlen >? len buf
        then inl (MemoryError (SectionBadData idx))
        else inr ({| CoffSection._name := nm; CoffSection._idx := idx;
                     CoffSection._paddr := ent !!! 2%nat;
                     CoffSection._vaddr := ent !!! 3%nat;
                     CoffSection._daddr := ent !!! 5%nat;
                     CoffSection._dlen := dlen;
                     CoffSection._flags := ent !!! 10%nat;
                     CoffSection._data := data |}, h)
    end.
Proof.
  intros Hbuf Hlen. unfold CoffSection._load.
  destruct name as [nm|]; [|reflexivity].
  change 2 with (Z.of_nat 2). change 3 with (Z.of_nat 3).
  change 4 with (Z.of_nat 4). change 5 with (Z.of_nat 5).
  change 10 with (Z.of_nat 10).
  rewrite !py_getitem_in by lia.
  unfold bind, lift, py_len, bind. rewrite (read_lookup _ _ _ Hbuf). unfold ret.
  cbv zeta. destruct (_ >? _); reflexivity.
Qed.

(** With a name but fewer than eleven fields, indexing the entry fails
    before anything else is looked at. *)
Lemma section_load_short (nm : string) (idx : Z) (ent : list Z)
    (data : loc) (blen : Z) (h : heap) :
  (length ent < 11)%nat ->
  CoffSection._load (Some nm) idx ent data blen h = inl IndexError.
Proof.
  intros Hlen. unfold CoffSection._load.
  change 2 with (Z.of_nat 2). change 3 with (Z.of_nat 3).
  change 4 with (Z.of_nat 4). change 5 with (Z.of_nat 5).
  change 10 with (Z.of_nat 10).
  unfold bind, lift.
  destruct (le_lt_dec (length ent) 2) as [H2|H2];
    [rewrite (py_getitem_out ent 2 H2); reflexivity|rewrite (py_getitem_in ent 2 H2)].
  destruct (le_lt_dec (length ent) 3) as [H3|H3];
    [rewrite (py_getitem_out ent 3 H3); reflexivity|rewrite (py_getitem_in ent 3 H3)].
  destruct (le_lt_dec (length ent) 4) as [H4|H4];
    [rewrite (py_getitem_out ent 4 H4); reflexivity|rewrite (py_getitem_in ent 4 H4)].
  destruct (le_lt_dec (length ent) 5) as [H5|H5];
    [rewrite (py_getitem_out ent 5 H5); reflexivity|rewrite (py_getitem_in ent 5 H5)].
  rewrite (py_getitem_out ent 10) by lia. reflexivity.
Qed.

(** One turn of the loop of [_load_sect_tab]. *)
Lemma load_sects_cons (self : CoffImage.t) (idx : Z) (rest : list Z) (addr : Z)
    (acc : list CoffSection.t) (h : heap) (buf : list byte) :
  h !! CoffImage._data self = Some buf ->
  CoffImage._load_sects self (idx :: rest) addr acc h =
    match struct_unpack CoffImage.ent_fmt
            (py_slice buf addr (addr + CoffSection.ENT_SIZE)) with
    | inl e => inl e
    | inr ent =>
        match CoffImage._get_ent_name self buf addr
                (bool_decide (ent !!! 0%nat = 0)) (ent !!! 1%nat) with
        | inl e => inl e
        | inr name =>
            match CoffSection._load name idx ent (CoffImage._data self)
                    (CoffImage._blen self) h with
            | inl e => inl e
            | inr (sect, h1) =>
                CoffImage._load_sects self rest (addr + CoffSection.ENT_SIZE)
                  (acc ++ [sect]) h1
            end
        end
    end.
Proof.
  intros Hbuf. cbn [CoffImage._load_sects]. unfold bind at 1.
  rewrite (read_lookup _ _ _ Hbuf).
  unfold bind at 1. unfold lift at 1.
  destruct (struct_unpack _ _) as [e|ent]; [reflexivity|].
  unfold bind at 1. unfold lift at 1.
  destruct (CoffImage._get_ent_name _ _ _ _ _) as [e|name]; [reflexivity|].
  unfold bind at 1. reflexivity.
Qed.

Lemma load_sects_spec (self : CoffImage.t) (buf : list byte) (h : heap) :
  h !! CoffImage._data self = Some buf ->
  forall (idxs : list Z) (addr : Z) (acc res : list CoffSection.t) (h' : heap),
    0 <= addr ->
    CoffImage._load_sects self idxs addr acc h = inr (res, h') ->
    h' = h /\
    exists new,
      res = acc ++ new /\ length new = length idxs /\
      forall (j : nat) (idx : Z) (s : CoffSection.t),
        idxs !! j = Some idx -> new !! j = Some s ->
        section_of_entry self buf idx (addr + 48 * Z.of_nat j) s.
Proof.
  intros Hbuf. induction idxs as [|idx rest IH]; intros addr acc res h' Ha Hrun.
  - cbn in Hrun. injection Hrun as <- <-. split; [reflexivity|].
    exists []. rewrite app_nil_r. split; [reflexivity|]. split; [reflexivity|].
    intros k ? ? Hk. inversion Hk.
  - rewrite (load_sects_cons _ _ _ _ _ _ _ Hbuf) in Hrun.
    pose proof (unpack_entry buf addr Ha) as Hent.
    destruct (struct_unpack _ _) as [e|ent]; [discriminate|].
    destruct Hent as (Hext & Hent12 & Hfields).
    destruct (CoffImage._get_ent_name _ _ _ _ _) as [e|name] eqn:Hname; [discriminate|].
    rewrite (section_load_eq _ _ _ _ _ _ _ Hbuf) in Hrun by lia.
    destruct name as [nm|]; [|discriminate]. cbv zeta in Hrun.
    destruct (Z.gtb_spec (ent !!! 5%nat +
                (if CoffSectionFlags.is_allocated (ent !!! 10%nat)
                 then ent !!! 4%nat * CoffImage._blen self else ent !!! 4%nat))
                (len buf)) as [Hbad|Hok]; [discriminate|].
    unfold CoffSection.ENT_SIZE in Hrun.
    assert (Ha' : 0 <= addr + 48) by lia.
    destruct (IH _ _ _ _ Ha' Hrun) as (-> & new & -> & Hlen & Hnew).
    split; [reflexivity|].
    eexists (_ :: new). split; [rewrite <- app_assoc; reflexivity|].
    split; [cbn; lia|].
    intros [|j] idx' s Hj Hs; cbn in Hj, Hs.
    + injection Hj as <-. injection Hs as <-.
      rewrite Z.mul_0_r, Z.add_0_r.
      rewrite !Hfields in Hok by lia. rewrite !Hfields in Hname by lia.
      constructor; cbn; rewrite ?Hfields by lia; try reflexivity; try lia.
      exact Hname.
    + replace (addr + 48 * Z.of_nat (S j)) with (addr + 48 + 48 * Z.of_nat j) by lia.
      apply (Hnew j idx' s Hj Hs).
Qed.

(** On a list with a repeated name, [CoffSectionTable._load] raises the
    duplicate-name error for the first section whose name was already
    borne by an earlier one. *)
Lemma table_load_dup (sects : list CoffSection.t) :
  ~ NoDup (names sects) ->
  exists (i j : nat) (si sj : CoffSection.t),
    (i < j)%nat /\ sects !! i = Some si /\ sects !! j = Some sj /\
    CoffSection._name si = CoffSection._name sj /\
    NoDup (names (take j sects)) /\
    CoffSectionTable._load sects
    = inl (MemoryError (DuplicateSection (CoffSection._name sj))).
Proof.
  intros Hdup.
  destruct (CoffSectionTable._load sects) as [e|t] eqn:Hload.
  2:{ exfalso. apply Hdup. apply table_load_ok_iff. eauto. }
  unfold CoffSectionTable._load in Hload.
  destruct (CoffSectionTable._load_loop sects ∅) as [e'|tab] eqn:Hl; [|discriminate].
  injection Hload as <-.
  destruct (load_loop_error _ _ _ Hl) as (j & sj & Hj & -> & Hseen & Hnd & _).
  destruct Hseen as [Hin|[x Hx]]; [|rewrite lookup_empty in Hx; discriminate].
  unfold names in Hin. apply list_elem_of_fmap in Hin as (si & Hn & Hin).
  apply list_elem_of_lookup in Hin as (i & Hi).
  pose proof (lookup_lt_Some _ _ _ Hi) as Hlt. rewrite length_take in Hlt.
  rewrite lookup_take_lt in Hi by lia.
  exists i, j, si, sj. repeat split; try assumption; try lia. congruence.
Qed.

(** The table [_load_sect_tab] builds: the store is untouched, the list
    has passed the duplicate check, it has one section per declared entry,
    and section [j] is decoded from entry [j]. *)
Lemma load_sect_tab_spec (self : CoffImage.t) (buf : list byte) (h h' : heap)
    (tab : CoffSectionTable.t) :
  h !! CoffImage._data self = Some buf ->
  CoffImage._load_sect_tab self h = inr (tab, h') ->
  h' = h /\
  CoffSectionTable._load (CoffSectionTable._sects tab) = inr tab /\
  length (CoffSectionTable._sects tab) = Z.to_nat (CoffImage._nsects self) /\
  forall (j : nat) (s : CoffSection.t),
    CoffSectionTable._sects tab !! j = Some s ->
    section_of_entry self buf (Z.of_nat j) (50 + 48 * Z.of_nat j) s.
Proof.
  intros Hbuf Hrun. unfold CoffImage._load_sect_tab, bind in Hrun.
  destruct (CoffImage._load_sects _ _ _ _ h) as [e|[sects h1]] eqn:Hloop; [discriminate|].
  unfold CoffImage.HDR_ENT_SIZE in Hloop.
  assert (H50 : 0 <= 50) by lia.
  destruct (load_sects_spec _ _ _ Hbuf _ _ _ _ _ H50 Hloop)
    as (-> & new & -> & Hlen & Hnew).
  cbn [app] in *. unfold lift in Hrun.
  destruct (CoffSectionTable._load new) as [e|t] eqn:Hload; [discriminate|].
  injection Hrun as <- <-.
  rewrite (table_load_sects _ _ Hload).
  split; [reflexivity|]. split; [exact Hload|].
  rewrite length_seqZ in Hlen. split; [exact Hlen|].
  intros j s Hs. apply (Hnew j (Z.of_nat j) s); [|exact Hs].
  apply lookup_seqZ. split; [lia|].
  apply lookup_lt_Some in Hs. lia.
Qed.

Lemma sectab_fresh (self : CoffImage.t) (h : heap) :
  CoffImage._sectab self = None ->
  CoffImage.sectab self h =
    match CoffImage._load_sect_tab self h with
    | inl e => inl e
    | inr (tab, h') => inr ((tab, CoffImage.set_sectab self tab), h')
    end.
Proof.
  intros Hnone. unfold CoffImage.sectab. rewrite Hnone.
  unfold bind. destruct (CoffImage._load_sect_tab self h) as [e|[tab h']]; reflexivity.
Qed.

(** What a successful construction leaves behind. *)
Lemma load_ok (h h' : heap) (data : loc) (buf : list byte) (img : CoffImage.t) :
  h !! data = Some buf ->
  CoffImage._load data h = inr (img, h') ->
  h' = h /\ img = image_of data buf /\
  50 <= len buf /\ hdr_magic buf = 0x0108 /\ hdr_tid buf <> 0 /\
  sectab_end buf <= len buf /\ sectab_end buf <= hdr_symtab_addr buf /\
  strtab_addr buf < len buf.
Proof.
  intros Hbuf. rewrite (load_chain _ _ _ Hbuf).
  destruct (Z.ltb_spec (len buf) 50); [discriminate|].
  destruct (Z.eqb_spec (hdr_magic buf) 264); [|discriminate]. cbn [negb].
  destruct (Z.eqb_spec (hdr_tid buf) 0); [discriminate|].
  destruct (Z.gtb_spec (sectab_end buf) (len buf)); [discriminate|].
  destruct (Z.gtb_spec (sectab_end buf) (hdr_symtab_addr buf)); [discriminate|].
  destruct (Z.gtb_spec (strtab_addr buf) (len buf)); [discriminate|]. cbn [orb].
  destruct (Z.leb_spec (strtab_len buf) 0); [discriminate|].
  destruct (Z.gtb_spec (strtab_end buf) (len buf)); [discriminate|]. cbn [orb].
  intros [= <- <-]. unfold strtab_len in *.
  repeat split; try assumption; lia.
Qed.

(** ** Flags and the multiplier table *)

Lemma testbit_alloc_mask (n : Z) :
  0 <= n -> Z.testbit CoffSectionFlags.ALLOC_MASK n = true <-> n = 5 \/ n = 6 \/ n = 7.
Proof.
  intros Hn. change CoffSectionFlags.ALLOC_MASK with 224.
  destruct (Z.le_gt_cases 8 n) as [Hbig|Hsmall].
  - rewrite Z.bits_above_log2 by (try lia; change (Z.log2 224) with 7; lia).
    split; [discriminate | lia].
  - assert (Hcases : n = 0 \/ n = 1 \/ n = 2 \/ n = 3 \/ n = 4 \/ n = 5 \/ n = 6 \/ n = 7)
      by lia.
    destruct Hcases as [->|[->|[->|[->|[->|[->|[->| ->]]]]]]]; cbn;
      split; try discriminate; try lia; reflexivity.
Qed.

(** The allocated predicate holds exactly when one of the bits 0x20,
    0x40, 0x80 (bits 5, 6, 7) of the flags is set. *)
Lemma is_allocated_bits (flags : Z) :
  CoffSectionFlags.is_allocated flags
  = Z.testbit flags 5 || Z.testbit flags 6 || Z.testbit flags 7.
Proof.
  unfold CoffSectionFlags.is_allocated.
  destruct (Z.eqb_spec (Z.land flags CoffSectionFlags.ALLOC_MASK) 0) as [Hz|Hnz]; cbn [negb].
  - assert (Hbit : forall n, Z.testbit CoffSectionFlags.ALLOC_MASK n = true ->
                             Z.testbit flags n = false).
    { intros n Hm.
      assert (Hl : Z.testbit (Z.land flags CoffSectionFlags.ALLOC_MASK) n = false)
        by (rewrite Hz; apply Z.bits_0).
      rewrite Z.land_spec, Hm, andb_true_r in Hl. exact Hl. }
    rewrite !Hbit by reflexivity. reflexivity.
  - destruct (Z.testbit flags 5 || Z.testbit flags 6 || Z.testbit flags 7) eqn:Hb;
      [reflexivity|].
    exfalso. apply Hnz. apply Z.bits_inj'. intros n Hn.
    rewrite Z.land_spec, Z.bits_0.
    destruct (Z.testbit CoffSectionFlags.ALLOC_MASK n) eqn:Hm;
      [|apply andb_false_r].
    apply testbit_alloc_mask in Hm; [|exact Hn].
    apply orb_false_iff in Hb as [Hb H7]. apply orb_false_iff in Hb as [H5 H6].
    destruct Hm as [->|[->| ->]]; rewrite ?H5, ?H6, ?H7; reflexivity.
Qed.

(** The dict [_blens] with its default of 1 is the multiplier table. *)
Lemma blens_multiplier (tid : Z) :
  default 1 (CoffImage._blens !! tid) = multiplier tid.
Proof.
  unfold CoffImage._blens, multiplier.
  destruct (decide (tid = 157)) as [->|H1]; [reflexivity|].
  rewrite lookup_insert_ne by congruence.
  destruct (decide (tid = 152)) as [->|H2]; [reflexivity|].
  rewrite lookup_insert_ne by congruence.
  rewrite lookup_empty. cbn.
  rewrite decide_False by lia. reflexivity.
Qed.


(** ** Slice assignment and the loop of [copy_sects] *)

Lemma py_setslice_inside {A} (l v : list A) (a b : Z) :
  0 <= a -> a <= b -> b <= len l ->
  py_setslice l a b v = take (Z.to_nat a) l ++ v ++ drop (Z.to_nat b) l.
Proof.
  intros Ha Hab Hb. unfold py_setslice, adjust_index.
  destruct (Z.ltb_spec a 0); [lia|].
  destruct (Z.ltb_spec b 0); [lia|].
  rewrite !Z.min_l by lia. rewrite Z.max_r by lia. reflexivity.
Qed.

Section setslice_same_length.

Context {A : Type} (l v : list A) (a b : Z).
Hypothesis Ha : 0 <= a.
Hypothesis Hab : a <= b.
Hypothesis Hb : b <= len l.
Hypothesis Hv : len v = b - a.

Lemma py_setslice_length : length (py_setslice l a b v) = length l.
Proof.
  rewrite py_setslice_inside by assumption.
  rewrite !length_app, length_take, length_drop.
  unfold len in *. lia.
Qed.

Lemma py_setslice_lookup_outside (i : nat) :
  Z.of_nat i < a \/ b <= Z.of_nat i ->
  py_setslice l a b v !! i = l !! i.
Proof.
  intros Hi. rewrite py_setslice_inside by assumption.
  unfold len in *.
  destruct Hi as [Hlo|Hhi].
  - rewrite lookup_app_l by (rewrite length_take; lia).
    apply lookup_take_lt. lia.
  - rewrite lookup_app_r by (rewrite length_take; lia).
    rewrite lookup_app_r by (rewrite length_take; lia).
    rewrite lookup_drop, length_take. f_equal. lia.
Qed.

Lemma py_setslice_lookup_inside (i : nat) :
  a <= Z.of_nat i < b ->
  py_setslice l a b v !! i = v !! (i - Z.to_nat a)%nat.
Proof.
  intros Hi. rewrite py_setslice_inside by assumption.
  unfold len in *.
  rewrite lookup_app_r by (rewrite length_take; lia).
  rewrite length_take.
  rewrite lookup_app_l by lia.
  f_equal. lia.
Qed.

End setslice_same_length.

(** [sect.data] allocates: the object returned is new, holds the bytes of
    the section and leaves every existing object as it was. *)
Lemma section_data_fresh (s : CoffSection.t) (h : heap) (buf : list byte) :
  h !! CoffSection._data s = Some buf ->
  exists l,
    h !! l = None /\
    CoffSection.data s h =
      inr (l, <[l := py_slice buf (CoffSection._daddr s)
                       (CoffSection._daddr s + CoffSection._dlen s)]> h).
Proof.
  intros Hbuf. exists (fresh (dom h)). split.
  - apply not_elem_of_dom. apply is_fresh.
  - unfold CoffSection.data, bind. rewrite (read_lookup _ _ _ Hbuf). reflexivity.
Qed.

Lemma copy_offset_range (addr end_addr : Z) (s : CoffSection.t) (off : Z) :
  copy_offset addr end_addr s = Some off ->
  0 <= off /\ off + CoffSection._dlen s <= end_addr - addr.
Proof.
  unfold copy_offset.
  destruct (Z.geb_spec (CoffSection._paddr s) addr);
    destruct (Z.leb_spec (CoffSection._paddr s + CoffSection._dlen s) end_addr);
    cbn [andb]; try (intros [= <-]; lia);
    destruct (Z.geb_spec (CoffSection._vaddr s) addr);
    destruct (Z.leb_spec (CoffSection._vaddr s + CoffSection._dlen s) end_addr);
    cbn [andb]; try (intros [= <-]; lia); discriminate.
Qed.

Lemma copy_sect_eq (addr end_addr : Z) (dst : loc) (s : CoffSection.t) :
  CoffImage.copy_sect addr end_addr dst s =
    match copy_offset addr end_addr s with
    | Some off =>
        let! src := CoffSection.data s in
        setslice dst off (off + CoffSection._dlen s) src
    | None => ret tt
    end.
Proof.
  unfold CoffImage.copy_sect, copy_offset.
  destruct (_ && _); [reflexivity|]. destruct (_ && _); reflexivity.
Qed.

Lemma section_bytes_len (buf : list byte) (s : CoffSection.t) :
  extent_ok (len buf) s -> len (section_bytes buf s) = CoffSection._dlen s.
Proof.
  intros (Hd & Hl & Hin). unfold section_bytes.
  rewrite py_slice_length by lia. lia.
Qed.

(** One turn of the loop on a section that is copied. *)
Lemma copy_sect_copied (addr : Z) (dst : loc) (s : CoffSection.t)
    (h : heap) (d buf : list byte) (off : Z) :
  h !! dst = Some d ->
  h !! CoffSection._data s = Some buf ->
  extent_ok (len buf) s ->
  copy_offset addr (addr + len d) s = Some off ->
  exists l,
    h !! l = None /\
    CoffImage.copy_sect addr (addr + len d) dst s h =
      inr (tt, <[dst := py_setslice d off (off + CoffSection._dlen s)
                          (section_bytes buf s)]>
                 (<[l := section_bytes buf s]> h)).
Proof.
  intros Hdst Hbuf Hext Hoff.
  destruct (section_data_fresh s h buf Hbuf) as (l & Hl & Hdata).
  exists l. split; [exact Hl|].
  rewrite copy_sect_eq, Hoff. unfold bind at 1. rewrite Hdata.
  fold (section_bytes buf s).
  assert (Hne : l <> dst) by (intros ->; congruence).
  unfold setslice, bind, read, write.
  rewrite lookup_insert_eq, lookup_insert_ne, Hdst by exact Hne.
  rewrite lookup_insert_ne, Hdst by exact Hne.
  reflexivity.
Qed.

Lemma copy_sect_skipped (addr end_addr : Z) (dst : loc) (s : CoffSection.t) (h : heap) :
  copy_offset addr end_addr s = None ->
  CoffImage.copy_sect addr end_addr dst s h = inr (tt, h).
Proof. intros Hoff. rewrite copy_sect_eq, Hoff. reflexivity. Qed.

(** The loop of [copy_sects]: it runs to the end without raising, keeps
    the length of the destination and of the image buffer, changes the
    destination only inside the ranges of the sections it copies, and
    leaves every other object of the store alone. *)
Lemma for_each_copy (addr n : Z) (dst data : loc) (sects : list CoffSection.t) :
  forall (h : heap) (d buf : list byte),
    h !! dst = Some d -> len d = n ->
    h !! data = Some buf ->
    (forall s, s ∈ sects -> CoffSection._data s = data /\ extent_ok (len buf) s) ->
    exists (h' : heap) (d' buf' : list byte),
      for_each (CoffImage.copy_sect addr (addr + n) dst) sects h = inr (tt, h') /\
      h' !! dst = Some d' /\ length d' = length d /\
      h' !! data = Some buf' /\ len buf' = len buf /\
      (forall i : nat,
         (forall s off, s ∈ sects -> copy_offset addr (addr + n) s = Some off ->
                        ~ (off <= Z.of_nat i < off + CoffSection._dlen s)) ->
         d' !! i = d !! i) /\
      (forall l, is_Some (h !! l) -> l <> dst -> h' !! l = h !! l).
Proof.
  induction sects as [|s rest IH]; intros h d buf Hdst Hn Hbuf Hwf.
  - exists h, d, buf. cbn. repeat split; auto.
  - assert (Hs : CoffSection._data s = data /\ extent_ok (len buf) s)
      by (apply Hwf; apply list_elem_of_here).
    destruct Hs as [Hsd Hext].
    assert (Hrest : forall s', s' ∈ rest ->
                      CoffSection._data s' = data /\ extent_ok (len buf) s')
      by (intros s' Hin; apply Hwf; apply list_elem_of_further; exact Hin).
    cbn [for_each]. unfold bind at 1.
    destruct (copy_offset addr (addr + n) s) as [off|] eqn:Hoff.
    + rewrite <- Hn in Hoff.
      assert (Hbuf' : h !! CoffSection._data s = Some buf) by (rewrite Hsd; exact Hbuf).
      destruct (copy_sect_copied addr dst s h d buf off Hdst Hbuf' Hext Hoff)
        as (l & Hl & Hstep).
      rewrite Hn in Hstep, Hoff. rewrite Hstep. clear Hstep.
      destruct (copy_offset_range _ _ _ _ Hoff) as [Ho1 Ho2].
      pose proof (section_bytes_len buf s Hext) as Hbl.
      destruct Hext as (Hd0 & Hl0 & Hin0).
      set (d1 := py_setslice d off (off + CoffSection._dlen s) (section_bytes buf s)).
      set (h1 := <[dst := d1]> (<[l := section_bytes buf s]> h)).
      assert (Hd1len : length d1 = length d).
      { apply py_setslice_length; lia. }
      assert (Hne : l <> dst) by (intros ->; congruence).
      assert (Hh1dst : h1 !! dst = Some d1) by apply lookup_insert_eq.
      assert (Hh1data : exists buf1, h1 !! data = Some buf1 /\ len buf1 = len buf).
      { destruct (decide (data = dst)) as [->|Hdd].
        - exists d1. split; [exact Hh1dst|].
          assert (buf = d) by congruence. subst buf. unfold len. lia.
        - exists buf. split; [|reflexivity]. unfold h1.
          rewrite lookup_insert_ne by congruence.
          rewrite lookup_insert_ne by (intros ->; congruence). exact Hbuf. }
      destruct Hh1data as (buf1 & Hh1data & Hb1len).
      assert (Hrest1 : forall s', s' ∈ rest ->
                         CoffSection._data s' = data /\ extent_ok (len buf1) s')
        by (rewrite Hb1len; exact Hrest).
      assert (Hn1 : len d1 = n) by (unfold len in *; lia).
      destruct (IH h1 d1 buf1 Hh1dst Hn1 Hh1data Hrest1)
        as (h' & d' & buf' & Hrun & Hd' & Hlen' & Hdata' & Hblen' & Hframe & Hother).
      exists h', d', buf'. split; [exact Hrun|]. split; [exact Hd'|].
      split; [lia|]. split; [exact Hdata'|]. split; [lia|]. split.
      * intros i Hi. rewrite Hframe.
        2:{ intros s' off' Hin. apply Hi. apply list_elem_of_further. exact Hin. }
        apply py_setslice_lookup_outside; try lia.
        specialize (Hi s off (list_elem_of_here _ _) Hoff). lia.
      * intros l0 Hsome Hl0dst.
        assert (Hl0l : l <> l0) by (intros ->; destruct Hsome as [x Hx]; congruence).
        assert (Hh1l0 : h1 !! l0 = h !! l0).
        { unfold h1. rewrite lookup_insert_ne by congruence.
          apply lookup_insert_ne. exact Hl0l. }
        rewrite Hother; [exact Hh1l0 | rewrite Hh1l0; exact Hsome | exact Hl0dst].
    + rewrite (copy_sect_skipped _ _ _ _ _ Hoff).
      destruct (IH h d buf Hdst Hn Hbuf Hrest)
        as (h' & d' & buf' & Hrun & Hd' & Hlen' & Hdata' & Hblen' & Hframe & Hother).
      exists h', d', buf'. repeat split; try assumption.
      intros i Hi. apply Hframe.
      intros s' off' Hin. apply Hi. apply list_elem_of_further. exact Hin.
Qed.

Lemma copy_offset_Some (addr end_addr : Z) (s : CoffSection.t) (off : Z) :
  copy_offset addr end_addr s = Some off <->
  (addr <= CoffSection._paddr s /\
   CoffSection._paddr s + CoffSection._dlen s <= end_addr /\
   off = CoffSection._paddr s - addr) \/
  (~ (addr <= CoffSection._paddr s /\
      CoffSection._paddr s + CoffSection._dlen s <= end_addr) /\
   addr <= CoffSection._vaddr s /\
   CoffSection._vaddr s + CoffSection._dlen s <= end_addr /\
   off = CoffSection._vaddr s - addr).
Proof.
  unfold copy_offset.
  destruct (Z.geb_spec (CoffSection._paddr s) addr);
    destruct (Z.leb_spec (CoffSection._paddr s + CoffSection._dlen s) end_addr);
    cbn [andb];
    try (split; [intros [= <-]; left; lia | intros [(_ & _ & ->)|(? & _)]; [reflexivity | lia]]);
    destruct (Z.geb_spec (CoffSection._vaddr s) addr);
    destruct (Z.leb_spec (CoffSection._vaddr s + CoffSection._dlen s) end_addr);
    cbn [andb];
    try (split; [intros [= <-]; right; lia | intros [(? & ? & _)|(_ & _ & _ & ->)]; [lia | reflexivity]]);
    (split; [discriminate | intros [(? & ? & _)|(_ & ? & ? & _)]; lia]).
Qed.

Lemma copy_offset_None (addr end_addr : Z) (s : CoffSection.t) :
  copy_offset addr end_addr s = None <->
  ~ (addr <= CoffSection._paddr s /\
     CoffSection._paddr s + CoffSection._dlen s <= end_addr) /\
  ~ (addr <= CoffSection._vaddr s /\
     CoffSection._vaddr s + CoffSection._dlen s <= end_addr).
Proof.
  unfold copy_offset.
  destruct (Z.geb_spec (CoffSection._paddr s) addr);
    destruct (Z.leb_spec (CoffSection._paddr s + CoffSection._dlen s) end_addr);
    cbn [andb]; try (split; [discriminate | intros [? _]; lia]);
    destruct (Z.geb_spec (CoffSection._vaddr s) addr);
    destruct (Z.leb_spec (CoffSection._vaddr s + CoffSection._dlen s) end_addr);
    cbn [andb]; try (split; [discriminate | intros [_ ?]; lia]);
    (split; [intros _; lia | reflexivity]).
Qed.

(** The sections of the table of a freshly constructed image refer to the
    image buffer and lie inside it. *)
Lemma image_sections_wf (h h' : heap) (data : loc) (buf : list byte)
    (tab : CoffSectionTable.t) :
  h !! data = Some buf ->
  CoffImage._load_sect_tab (image_of data buf) h = inr (tab, h') ->
  forall s, s ∈ CoffSectionTable._sects tab ->
            CoffSection._data s = data /\ extent_ok (len buf) s.
Proof.
  intros Hbuf Htab s Hin.
  destruct (load_sect_tab_spec (image_of data buf) buf _ _ _ Hbuf Htab)
    as (_ & _ & _ & Hent).
  apply list_elem_of_lookup in Hin as (j & Hj).
  destruct (Hent _ _ Hj) as [_ _ _ _ _ Hda _ Hdl Hdata Hin].
  split; [exact Hdata|].
  pose proof (ent_field_bounds buf (50 + 48 * Z.of_nat j) 5) as B5.
  pose proof (ent_field_bounds buf (50 + 48 * Z.of_nat j) 4) as B4.
  assert (Hblen : 1 <= CoffImage._blen (image_of data buf)).
  { cbn. rewrite blens_multiplier. unfold multiplier. destruct (decide _); lia. }
  unfold extent_ok. rewrite Hda. split; [lia|]. split; [|lia].
  rewrite Hdl. destruct (CoffSectionFlags.is_allocated _); nia.
Qed.

Lemma for_each_app {A} (body : A -> M unit) (xs ys : list A) (h : heap) :
  for_each body (xs ++ ys) h =
    match for_each body xs h with
    | inl e => inl e
    | inr (_, h1) => for_each body ys h1
    end.
Proof.
  revert h. induction xs as [|x xs IH]; intros h; cbn; [reflexivity|].
  unfold bind. destruct (body x h) as [e|[[] h1]]; [reflexivity|]. apply IH.
Qed.

Lemma section_bytes_lookup (buf : list byte) (s : CoffSection.t) (k : nat) :
  extent_ok (len buf) s -> Z.of_nat k < CoffSection._dlen s ->
  section_bytes buf s !! k = buf !! (Z.to_nat (CoffSection._daddr s) + k)%nat.
Proof.
  intros (Hd & Hl & Hin) Hk. unfold section_bytes.
  rewrite py_slice_inside by lia.
  rewrite lookup_take_lt by lia. apply lookup_drop.
Qed.

(** [copy_sects] on an image that already holds its table. *)
Lemma copy_sects_cached (self : CoffImage.t) (tab : CoffSectionTable.t)
    (addr : Z) (dst : loc) (h : heap) (d : list byte) :
  CoffImage._sectab self = Some tab ->
  h !! dst = Some d ->
  CoffImage.copy_sects self addr dst h =
    match for_each (CoffImage.copy_sect addr (addr + len d) dst)
            (CoffSectionTable._sects tab) h with
    | inl e => inl e
    | inr (_, h') => inr (self, h')
    end.
Proof.
  intros Hcache Hdst.
  unfold CoffImage.copy_sects, bind at 1, py_len, bind at 1.
  rewrite (read_lookup _ _ _ Hdst). unfold ret at 1.
  unfold bind at 1, CoffImage.sectab. rewrite Hcache. unfold ret at 1.
  unfold bind, CoffSectionTable.__iter__.
  destruct (for_each _ _ h) as [e|[[] h']]; reflexivity.
Qed.

(** What the loop leaves at an index covered by a copied section [s] and
    by no later one: the byte of [s] at that position, read from the image
    buffer as it stood when the turn of [s] came, which is the buffer of
    the start when the destination is another object. *)
Lemma for_each_copy_last (addr n : Z) (dst data : loc) (sects : list CoffSection.t)
    (h h' : heap) (d d' buf : list byte) :
  h !! dst = Some d -> len d = n ->
  h !! data = Some buf ->
  (forall s, s ∈ sects -> CoffSection._data s = data /\ extent_ok (len buf) s) ->
  for_each (CoffImage.copy_sect addr (addr + n) dst) sects h = inr (tt, h') ->
  h' !! dst = Some d' ->
  forall pre s post off (i : nat),
    sects = pre ++ s :: post ->
    copy_offset addr (addr + n) s = Some off ->
    off <= Z.of_nat i < off + CoffSection._dlen s ->
    (forall s' off', s' ∈ post -> copy_offset addr (addr + n) s' = Some off' ->
                     ~ (off' <= Z.of_nat i < off' + CoffSection._dlen s')) ->
    exists (hb : heap) (bufb : list byte),
      for_each (CoffImage.copy_sect addr (addr + n) dst) pre h = inr (tt, hb) /\
      hb !! data = Some bufb /\ len bufb = len buf /\
      (dst <> data -> bufb = buf) /\
      d' !! i = bufb !! Z.to_nat (CoffSection._daddr s + (Z.of_nat i - off)).
Proof.
  intros Hdst Hn Hbuf Hwf Hloop Hd' pre s post off i -> Hoff Hi Hlast.
  set (body := CoffImage.copy_sect addr (addr + n) dst) in *.
  assert (Hwf_pre : forall s', s' ∈ pre ->
            CoffSection._data s' = data /\ extent_ok (len buf) s').
  { intros s' Hin. apply Hwf. apply elem_of_app. left. exact Hin. }
  destruct (for_each_copy addr n dst data pre h d buf Hdst Hn Hbuf Hwf_pre)
    as (ha & da & bufa & Hpre & Hda & Hlena & Hbufa & Hblen & _ & Hothera).
  fold body in Hpre.
  exists ha, bufa. split; [exact Hpre|]. split; [exact Hbufa|]. split; [exact Hblen|].
  split.
  { intros Hne.
    assert (Hsame : ha !! data = h !! data) by (apply Hothera; [eauto | congruence]).
    congruence. }
  assert (Hs : CoffSection._data s = data /\ extent_ok (len buf) s).
  { apply Hwf. apply elem_of_app. right. apply list_elem_of_here. }
  destruct Hs as [Hsd Hext]. rewrite <- Hblen in Hext.
  assert (Hlenda : len da = n) by (unfold len in *; lia).
  assert (Hbufs : ha !! CoffSection._data s = Some bufa) by (rewrite Hsd; exact Hbufa).
  assert (Hoffa : copy_offset addr (addr + len da) s = Some off)
    by (rewrite Hlenda; exact Hoff).
  destruct (copy_sect_copied addr dst s ha da bufa off Hda Hbufs Hext Hoffa)
    as (l & Hl & Hstep).
  rewrite Hlenda in Hstep. fold body in Hstep.
  set (db := py_setslice da off (off + CoffSection._dlen s) (section_bytes bufa s)) in *.
  set (hb := <[dst := db]> (<[l := section_bytes bufa s]> ha)) in *.
  destruct (copy_offset_range _ _ _ _ Hoff) as [Ho1 Ho2].
  pose proof (section_bytes_len bufa s Hext) as Hbl.
  pose proof Hext as (Hd0 & Hl0 & Hin0).
  assert (Hdblen : length db = length da) by (apply py_setslice_length; lia).
  assert (Hhbdst : hb !! dst = Some db) by apply lookup_insert_eq.
  assert (Hhbdata : exists bufc, hb !! data = Some bufc /\ len bufc = len buf).
  { destruct (decide (data = dst)) as [->|Hdd].
    - exists db. split; [exact Hhbdst|].
      assert (bufa = da) by congruence. subst bufa. unfold len in *. lia.
    - exists bufa. split; [|exact Hblen]. unfold hb.
      rewrite lookup_insert_ne by congruence.
      rewrite lookup_insert_ne by (intros ->; congruence). exact Hbufa. }
  destruct Hhbdata as (bufc & Hhbdata & Hclen).
  assert (Hwf_post : forall s', s' ∈ post ->
            CoffSection._data s' = data /\ extent_ok (len bufc) s').
  { intros s' Hin. rewrite Hclen. apply Hwf. apply elem_of_app. right.
    apply list_elem_of_further. exact Hin. }
  assert (Hlendb : len db = n) by (unfold len in *; lia).
  destruct (for_each_copy addr n dst data post hb db bufc Hhbdst Hlendb
              Hhbdata Hwf_post)
    as (hc & dc & bufd & Hpost & Hdc & _ & _ & _ & Hframe & _).
  fold body in Hpost.
  rewrite for_each_app, Hpre in Hloop. cbn [for_each] in Hloop.
  unfold bind in Hloop. rewrite Hstep, Hpost in Hloop.
  injection Hloop as <-.
  assert (dc = d') by congruence. subst dc.
  rewrite (Hframe i Hlast).
  unfold db. rewrite py_setslice_lookup_inside by lia.
  rewrite section_bytes_lookup by (try exact Hext; lia).
  f_equal. lia.
Qed.

(** ** Validation order of [CoffImage._load] *)

(** C1: construction runs its checks in a fixed short-circuit order and the
    first failing check decides the error: (1) a buffer shorter than 50
    bytes is not a coff image; (2) a magic field (header field 8) other
    than 0x0108 is reported with the expected and the actual value; (3) a
    target id of 0 is an invalid target; (4) a section table ending beyond
    the buffer is an invalid section table; (5) a failing symbol-table
    check is an invalid symbol table; (6) a string table of length <= 0 or
    ending beyond the buffer is an invalid string table; and when every
    check passes the image is constructed. *)
Theorem load_validation_order (h : heap) (data : loc) (buf : list byte) :
  h !! data = Some buf ->
  let result := CoffImage._load data h in
  let symtab_bad := sectab_end buf > hdr_symtab_addr buf \/ strtab_addr buf > len buf in
  let strtab_bad := strtab_len buf <= 0 \/ strtab_end buf > len buf in
  (len buf < 50 -> result = inl (MemoryError NotCoffImage)) /\
  (50 <= len buf ->
   exists hdr,
     struct_unpack CoffImage.hdr_fmt (py_slice buf 0 50) = inr hdr /\
     hdr !!! 8%nat = hdr_magic buf /\ 0 <= hdr_magic buf < 2 ^ 16) /\
  (50 <= len buf -> hdr_magic buf <> 0x0108 ->
   result = inl (MemoryError (BadMagic 0x0108 (hdr_magic buf)))) /\
  (50 <= len buf -> hdr_magic buf = 0x0108 -> hdr_tid buf = 0 ->
   result = inl (MemoryError BadTarget)) /\
  (50 <= len buf -> hdr_magic buf = 0x0108 -> hdr_tid buf <> 0 ->
   50 + hdr_nsects buf * 48 > len buf ->
   result = inl (MemoryError BadSectionTable)) /\
  (50 <= len buf -> hdr_magic buf = 0x0108 -> hdr_tid buf <> 0 ->
   50 + hdr_nsects buf * 48 <= len buf -> symtab_bad ->
   result = inl (MemoryError BadSymbolTable)) /\
  (50 <= len buf -> hdr_magic buf = 0x0108 -> hdr_tid buf <> 0 ->
   50 + hdr_nsects buf * 48 <= len buf -> ~ symtab_bad -> strtab_bad ->
   result = inl (MemoryError BadStringTable)) /\
  (50 <= len buf -> hdr_magic buf = 0x0108 -> hdr_tid buf <> 0 ->
   50 + hdr_nsects buf * 48 <= len buf -> ~ symtab_bad -> ~ strtab_bad ->
   exists img, result = inr (img, h)).
Proof.
  intros Hbuf result symtab_bad strtab_bad.
  subst result symtab_bad strtab_bad.
  rewrite (load_chain h data buf Hbuf).
  unfold sectab_end.
  repeat split.
  - intros Hlt. destruct (Z.ltb_spec (len buf) 50); [reflexivity | lia].
  - intros Hge. destruct (unpack_header buf Hge) as (hdr & E & _ & _ & _ & _ & E8 & _).
    exists hdr. split; [exact E|]. split; [exact E8|].
    apply field_at_u16.
  - intros Hge Hm.
    destruct (Z.ltb_spec (len buf) 50); [lia|].
    destruct (Z.eqb_spec (hdr_magic buf) 264); [lia | reflexivity].
  - intros Hge Hm Ht.
    destruct (Z.ltb_spec (len buf) 50); [lia|].
    destruct (Z.eqb_spec (hdr_magic buf) 264); [|lia]. simpl.
    destruct (Z.eqb_spec (hdr_tid buf) 0); [reflexivity | lia].
  - intros Hge Hm Ht Hs.
    destruct (Z.ltb_spec (len buf) 50); [lia|].
    destruct (Z.eqb_spec (hdr_magic buf) 264); [|lia]. simpl.
    destruct (Z.eqb_spec (hdr_tid buf) 0); [lia|].
    destruct (Z.gtb_spec (50 + hdr_nsects buf * 48) (len buf)); [reflexivity | lia].
  - intros Hge Hm Ht Hs Hy.
    destruct (Z.ltb_spec (len buf) 50); [lia|].
    destruct (Z.eqb_spec (hdr_magic buf) 264); [|lia]. simpl.
    destruct (Z.eqb_spec (hdr_tid buf) 0); [lia|].
    destruct (Z.gtb_spec (50 + hdr_nsects buf * 48) (len buf)); [lia|].
    destruct (Z.gtb_spec (50 + hdr_nsects buf * 48) (hdr_symtab_addr buf));
      destruct (Z.gtb_spec (strtab_addr buf) (len buf)); simpl; try reflexivity; lia.
  - intros Hge Hm Ht Hs Hy Hr.
    destruct (Z.ltb_spec (len buf) 50); [lia|].
    destruct (Z.eqb_spec (hdr_magic buf) 264); [|lia]. simpl.
    destruct (Z.eqb_spec (hdr_tid buf) 0); [lia|].
    destruct (Z.gtb_spec (50 + hdr_nsects buf * 48) (len buf)); [lia|].
    destruct (Z.gtb_spec (50 + hdr_nsects buf * 48) (hdr_symtab_addr buf));
      destruct (Z.gtb_spec (strtab_addr buf) (len buf)); simpl; try lia.
    destruct (Z.leb_spec (strtab_len buf) 0);
      destruct (Z.gtb_spec (strtab_end buf) (len buf)); simpl; try reflexivity; lia.
  - intros Hge Hm Ht Hs Hy Hr.
    destruct (Z.ltb_spec (len buf) 50); [lia|].
    destruct (Z.eqb_spec (hdr_magic buf) 264); [|lia]. simpl.
    destruct (Z.eqb_spec (hdr_tid buf) 0); [lia|].
    destruct (Z.gtb_spec (50 + hdr_nsects buf * 48) (len buf)); [lia|].
    destruct (Z.gtb_spec (50 + hdr_nsects buf * 48) (hdr_symtab_addr buf));
      destruct (Z.gtb_spec (strtab_addr buf) (len buf)); simpl; try lia.
    destruct (Z.leb_spec (strtab_len buf) 0);
      destruct (Z.gtb_spec (strtab_end buf) (len buf)); simpl; try lia.
    eexists. reflexivity.
Qed.

Lemma load_validation_order_witness :
  ({[1%positive := img_min]} : heap) !! 1%positive = Some img_min /\
  exists img,
    CoffImage._load 1%positive {[1%positive := img_min]}
    = inr (img, {[1%positive := img_min]}).
Proof.
  assert (Hbuf : ({[1%positive := img_min]} : heap) !! 1%positive = Some img_min)
    by reflexivity.
  split; [exact Hbuf|].
  destruct (load_validation_order {[1%positive := img_min]} 1%positive img_min
              Hbuf) as (_ & _ & _ & _ & _ & _ & _ & Hok).
  apply Hok; vm_compute; intuition congruence.
Defined.

(** ** The symbol-table check *)

(** C2, as the specification words it, is refuted by the smallest valid
    image: its section table ends at offset 50, exactly at the declared
    symbol-table address, so it lies at or before that address, and yet
    construction raises no symbol-table error. *)
Lemma symtab_at_or_before_refuted :
  ~ (forall (h : heap) (data : loc) (buf : list byte),
       h !! data = Some buf ->
       50 <= len buf -> hdr_magic buf = 0x0108 -> hdr_tid buf <> 0 ->
       50 + hdr_nsects buf * 48 <= len buf ->
       (CoffImage._load data h = inl (MemoryError BadSymbolTable) <->
        (50 + hdr_nsects buf * 48 <= hdr_symtab_addr buf \/
         hdr_symtab_addr buf + hdr_nsyms buf * 18 > len buf))).
Proof.
  intros Hclaim.
  assert (Hbuf : ({[1%positive := img_min]} : heap) !! 1%positive = Some img_min)
    by reflexivity.
  specialize (Hclaim _ _ _ Hbuf).
  destruct Hclaim as [_ Hraise]; try (vm_compute; intuition congruence).
  assert (Herr : CoffImage._load 1%positive ({[1%positive := img_min]} : heap)
                 = inl (MemoryError BadSymbolTable)).
  { apply Hraise. left. vm_compute. congruence. }
  vm_compute in Herr. discriminate Herr.
Qed.

(** C2 (amended): once the header-size, magic, target-id and section-table
    checks have passed, the invalid-symbol-table error is raised exactly
    when the section table ends strictly after the declared symbol-table
    address (50 + section_count * 48 > symbol-table address), or the
    string-table address (symbol-table address + symbol_count * 18)
    exceeds the buffer length. *)
Theorem symtab_error_iff (h : heap) (data : loc) (buf : list byte) :
  h !! data = Some buf ->
  50 <= len buf -> hdr_magic buf = 0x0108 -> hdr_tid buf <> 0 ->
  50 + hdr_nsects buf * 48 <= len buf ->
  (CoffImage._load data h = inl (MemoryError BadSymbolTable) <->
   (50 + hdr_nsects buf * 48 > hdr_symtab_addr buf \/
    hdr_symtab_addr buf + hdr_nsyms buf * 18 > len buf)).
Proof.
  intros Hbuf Hge Hm Ht Hs.
  rewrite (load_chain h data buf Hbuf).
  unfold sectab_end, strtab_addr.
  destruct (Z.ltb_spec (len buf) 50); [lia|].
  destruct (Z.eqb_spec (hdr_magic buf) 264); [|lia]. simpl.
  destruct (Z.eqb_spec (hdr_tid buf) 0); [lia|].
  destruct (Z.gtb_spec (50 + hdr_nsects buf * 48) (len buf)); [lia|].
  destruct (Z.gtb_spec (50 + hdr_nsects buf * 48) (hdr_symtab_addr buf));
    destruct (Z.gtb_spec (hdr_symtab_addr buf + hdr_nsyms buf * 18) (len buf));
    simpl; try (split; [intros _; lia | reflexivity]).
  split; [|lia].
  destruct (_ || _); discriminate.
Qed.

Lemma symtab_error_iff_witness :
  CoffImage._load 1%positive ({[1%positive := img_symtab_overlap]} : heap)
  = inl (MemoryError BadSymbolTable).
Proof.
  assert (Hbuf : ({[1%positive := img_symtab_overlap]} : heap) !! 1%positive
                 = Some img_symtab_overlap) by reflexivity.
  apply (symtab_error_iff _ _ _ Hbuf); vm_compute; intuition congruence.
Defined.

(** ** [dataops.align] *)

(** C9, as stated for every non-zero alignment, is refuted by a negative
    alignment: [align 5 (-4)] is not the aligned case, returns
    [5 + (-4) - (5 mod (-4)) = 4], and 4 is not above 5. *)
Lemma align_above_refuted :
  ~ (forall value alignment : Z,
       alignment <> 0 -> value mod alignment <> 0 ->
       dataops.align value alignment = value + alignment - value mod alignment /\
       value < dataops.align value alignment).
Proof.
  intros Hclaim.
  destruct (Hclaim 5 (-4)) as [_ Habove]; [lia | vm_compute; congruence |].
  vm_compute in Habove. discriminate Habove.
Qed.

(** C9 (amended): for every integer value and every non-zero alignment,
    when value is an exact multiple of the alignment, align returns the
    alignment itself rather than value; when value is not a multiple, it
    returns value + alignment - (value mod alignment), which is a multiple
    of the alignment and, for a positive alignment, the next multiple above
    value (for a negative alignment, the next multiple below value); and
    align(value, 0) returns value unchanged. *)
Theorem align_cases (value alignment : Z) :
  let r := dataops.align value alignment in
  (alignment <> 0 -> value mod alignment = 0 -> r = alignment) /\
  (alignment <> 0 -> value mod alignment <> 0 ->
   r = value + alignment - value mod alignment /\
   (alignment | r) /\
   (0 < alignment ->
    value < r /\ forall m, (alignment | m) -> value < m -> r <= m) /\
   (alignment < 0 ->
    r < value /\ forall m, (alignment | m) -> m < value -> m <= r)) /\
  dataops.align value 0 = value.
Proof.
  cbv zeta. unfold dataops.align.
  split; [|split].
  - intros Ha Hm.
    destruct (Z.eqb_spec alignment 0); [lia|].
    destruct (Z.eqb_spec (value mod alignment) 0); [reflexivity | lia].
  - intros Ha Hm.
    destruct (Z.eqb_spec alignment 0); [lia|].
    destruct (Z.eqb_spec (value mod alignment) 0); [lia|].
    pose proof (Z.div_mod value alignment Ha) as Hdm.
    set (q := value / alignment) in *. set (rem := value mod alignment) in *.
    assert (Hr : value + alignment - rem = alignment * (q + 1)) by lia.
    split; [reflexivity|]. split; [|split].
    + exists (q + 1). lia.
    + intros Hpos.
      pose proof (Z.mod_pos_bound value alignment Hpos) as Hb. fold rem in Hb.
      split; [lia|].
      intros m [k ->] Hlt. rewrite Hr.
      assert (q < k) by nia. nia.
    + intros Hneg.
      pose proof (Z.mod_neg_bound value alignment Hneg) as Hb. fold rem in Hb.
      split; [lia|].
      intros m [k ->] Hlt. rewrite Hr.
      assert (q < k) by nia. nia.
  - reflexivity.
Qed.

Lemma align_cases_witness :
  dataops.align 8 4 = 4 /\ dataops.align 9 4 = 9 + 4 - 9 mod 4.
Proof.
  destruct (align_cases 8 4) as (Haligned & _ & _).
  destruct (align_cases 9 4) as (_ & Hnext & _).
  split.
  - apply Haligned; [lia | reflexivity].
  - apply Hnext; [lia | vm_compute; congruence].
Defined.

(** ** Lookup in the section table *)

Lemma py_getitem_inr {A} (l : list A) (k : Z) (x : A) :
  py_getitem l k = inr x <->
  (0 <= k < len l /\ l !! Z.to_nat k = Some x) \/
  (- len l <= k < 0 /\ l !! Z.to_nat (len l + k) = Some x).
Proof.
  unfold py_getitem.
  destruct (Z.ltb_spec k 0) as [Hneg|Hpos].
  - destruct (Z.leb_spec 0 (k + len l)); destruct (Z.ltb_spec (k + len l) (len l));
      cbn [andb]; try (split; [discriminate | intros [[? _]|[? _]]; lia]).
    rewrite (Z.add_comm k).
    destruct (l !! Z.to_nat (len l + k)) as [y|] eqn:Hy.
    + split; [intros [= ->]; right; split; [lia | reflexivity]|].
      intros [[? _]|[_ [= ->]]]; [lia | reflexivity].
    + split; [discriminate|]. intros [[? _]|[_ ?]]; [lia | discriminate].
  - destruct (Z.leb_spec 0 k); [|lia].
    destruct (Z.ltb_spec k (len l)); cbn [andb];
      [|split; [discriminate | intros [[? _]|[? _]]; lia]].
    destruct (l !! Z.to_nat k) as [y|] eqn:Hy.
    + split; [intros [= ->]; left; split; [lia | reflexivity]|].
      intros [[_ [= ->]]|[? _]]; [reflexivity | lia].
    + split; [discriminate|]. intros [[_ ?]|[? _]]; [discriminate | lia].
Qed.

Lemma py_getitem_inl {A} (l : list A) (k : Z) (e : exn) :
  py_getitem l k = inl e <-> e = IndexError /\ (k >= len l \/ k < - len l).
Proof.
  unfold py_getitem.
  destruct (Z.ltb_spec k 0) as [Hneg|Hpos].
  - destruct (Z.leb_spec 0 (k + len l)); destruct (Z.ltb_spec (k + len l) (len l));
      cbn [andb]; try (split; [intros [= <-]; split; [reflexivity | lia] | intros [-> _]; reflexivity]).
    destruct (lookup_lt_is_Some_2 l (Z.to_nat (k + len l))) as [y ->].
    { unfold len in *. lia. }
    split; [discriminate | intros [_ ?]; lia].
  - destruct (Z.leb_spec 0 k); [|lia].
    destruct (Z.ltb_spec k (len l)); cbn [andb];
      [|split; [intros [= <-]; split; [reflexivity | lia] | intros [-> _]; reflexivity]].
    destruct (lookup_lt_is_Some_2 l (Z.to_nat k)) as [y ->].
    { unfold len in *. lia. }
    split; [discriminate | intros [_ ?]; lia].
Qed.

(** C10: lookup by integer follows Python sequence indexing: for a table
    of n sections and -n <= k < 0, [table[k]] is the section at position
    n + k, so the index error occurs only when k >= n or k < -n; lookup by
    name fails, with a key error, exactly when no section bears that name. *)
Theorem getitem_python_indexing (sects : list CoffSection.t) (t : CoffSectionTable.t) :
  CoffSectionTable._load sects = inr t ->
  let n := len sects in
  (forall k, - n <= k < 0 ->
     exists s, sects !! Z.to_nat (n + k) = Some s /\
               CoffSectionTable.__getitem__ t (CoffSectionTable.KInt k) = inr s) /\
  (forall k, 0 <= k < n ->
     exists s, sects !! Z.to_nat k = Some s /\
               CoffSectionTable.__getitem__ t (CoffSectionTable.KInt k) = inr s) /\
  (forall k e, CoffSectionTable.__getitem__ t (CoffSectionTable.KInt k) = inl e <->
               e = IndexError /\ (k >= n \/ k < - n)) /\
  (forall name e, CoffSectionTable.__getitem__ t (CoffSectionTable.KStr name) = inl e <->
                  e = KeyError name /\
                  forall s, s ∈ sects -> CoffSection._name s <> name) /\
  (forall name s, CoffSectionTable.__getitem__ t (CoffSectionTable.KStr name) = inr s ->
                  s ∈ sects /\ CoffSection._name s = name).
Proof.
  intros Hload n. subst n.
  pose proof (table_load_sects _ _ Hload) as Hsects.
  unfold CoffSectionTable.__getitem__. rewrite Hsects.
  split; [|split; [|split; [|split]]].
  - intros k Hk.
    destruct (lookup_lt_is_Some_2 sects (Z.to_nat (len sects + k))) as [s Hs].
    { unfold len in *. lia. }
    exists s. split; [exact Hs|]. apply py_getitem_inr. right. split; [lia | exact Hs].
  - intros k Hk.
    destruct (lookup_lt_is_Some_2 sects (Z.to_nat k)) as [s Hs].
    { unfold len in *. lia. }
    exists s. split; [exact Hs|]. apply py_getitem_inr. left. split; [lia | exact Hs].
  - intros k e. apply py_getitem_inl.
  - intros name e. rewrite (table_load_tab _ _ name Hload).
    destruct (list_find _ sects) as [[i s]|] eqn:Hf; cbn.
    + apply list_find_Some in Hf as (Hi & Hn & _).
      split; [discriminate|]. intros [_ Hnone]. exfalso.
      apply (Hnone s); [|exact Hn]. eapply list_elem_of_lookup_2. exact Hi.
    + split.
      * intros [= <-]. split; [reflexivity|].
        intros s Hs Hn. eapply list_find_None in Hf.
        rewrite Forall_forall in Hf. apply (Hf s Hs Hn).
      * intros [-> _]. reflexivity.
  - intros name s. rewrite (table_load_tab _ _ name Hload).
    destruct (list_find _ sects) as [[i s']|] eqn:Hf; cbn; [|discriminate].
    intros [= <-]. apply list_find_Some in Hf as (Hi & Hn & _).
    split; [eapply list_elem_of_lookup_2; exact Hi | exact Hn].
Qed.

Lemma getitem_python_indexing_witness :
  exists t, CoffSectionTable._load [sect_text; sect_data] = inr t /\
    CoffSectionTable.__getitem__ t (CoffSectionTable.KInt (-1)) = inr sect_data /\
    CoffSectionTable.__getitem__ t (CoffSectionTable.KInt 2) = inl IndexError /\
    CoffSectionTable.__getitem__ t (CoffSectionTable.KStr ".bss") = inl (KeyError ".bss").
Proof.
  destruct (CoffSectionTable._load [sect_text; sect_data]) as [e|t] eqn:Hload;
    [vm_compute in Hload; discriminate Hload|].
  exists t. split; [reflexivity|].
  destruct (getitem_python_indexing [sect_text; sect_data] t Hload)
    as (Hneg & _ & Hidx & Hkey & _).
  split; [|split].
  - destruct (Hneg (-1)) as (s & Hs & ->); [vm_compute; intuition congruence|].
    change (Some sect_data = Some s) in Hs. congruence.
  - apply Hidx. split; [reflexivity|]. left. vm_compute. congruence.
  - apply Hkey. split; [reflexivity|].
    intros s Hs. repeat (apply elem_of_cons in Hs as [->|Hs]); [| |inversion Hs];
      cbn; discriminate.
Defined.

(** ** Iterating the section table *)

(** C6: when the section table of an image is built, iterating it yields
    exactly section_count sections, in file order (section i is decoded
    from entry i and carries index i), with pairwise distinct names; and
    when two entries resolve to the same name, building the table fails
    with the duplicate-name error naming the repeated name. *)
Theorem sectab_iteration (h : heap) (data : loc) (buf : list byte) (img : CoffImage.t) :
  h !! data = Some buf ->
  CoffImage._load data h = inr (img, h) ->
  (forall tab img' h',
     CoffImage.sectab img h = inr ((tab, img'), h') ->
     let sects := CoffSectionTable.__iter__ tab in
     len sects = CoffImage._nsects img /\
     (forall i, 0 <= i < CoffImage._nsects img ->
        exists s, sects !! Z.to_nat i = Some s /\
                  CoffSection._idx s = i /\
                  section_of_entry img buf i (50 + 48 * i) s) /\
     NoDup (names sects)) /\
  (forall sects,
     CoffImage._load_sects img (seqZ 0 (CoffImage._nsects img)) 50 [] h
     = inr (sects, h) ->
     ~ NoDup (names sects) ->
     exists (i j : nat) si sj,
       (i < j)%nat /\ sects !! i = Some si /\ sects !! j = Some sj /\
       CoffSection._name si = CoffSection._name sj /\
       CoffImage.sectab img h
       = inl (MemoryError (DuplicateSection (CoffSection._name sj)))) /\
  (forall sects,
     ~ NoDup (names sects) ->
     exists (i j : nat) si sj,
       (i < j)%nat /\ sects !! i = Some si /\ sects !! j = Some sj /\
       CoffSection._name si = CoffSection._name sj /\
       CoffSectionTable._load sects
       = inl (MemoryError (DuplicateSection (CoffSection._name sj)))).
Proof.
  intros Hbuf Hload.
  destruct (load_ok _ _ _ _ _ Hbuf Hload) as (_ & -> & _).
  assert (Hdata : h !! CoffImage._data (image_of data buf) = Some buf) by exact Hbuf.
  assert (Hn : 0 <= CoffImage._nsects (image_of data buf)).
  { cbn. apply field_at_nonneg. }
  split; [|split].
  - intros tab img' h' Hrun. cbv zeta. unfold CoffSectionTable.__iter__.
    rewrite sectab_fresh in Hrun by reflexivity.
    destruct (CoffImage._load_sect_tab _ h) as [e|[tab0 h0]] eqn:Htab; [discriminate|].
    injection Hrun as <- <- <-.
    destruct (load_sect_tab_spec _ _ _ _ _ Hdata Htab) as (_ & Hok & Hlen & Hent).
    split; [unfold len; lia|]. split.
    + intros i Hi.
      destruct (lookup_lt_is_Some_2 (CoffSectionTable._sects tab0) (Z.to_nat i))
        as [s Hs]; [lia|].
      exists s. split; [exact Hs|].
      pose proof (Hent _ _ Hs) as Hsoe. rewrite Z2Nat.id in Hsoe by lia.
      split; [apply (soe_idx _ _ _ _ _ Hsoe) | exact Hsoe].
    + apply table_load_ok_iff. eauto.
  - intros sects Hloop Hdup.
    destruct (table_load_dup sects Hdup) as (i & j & si & sj & Hij & Hi & Hj & Hname & _ & Herr).
    exists i, j, si, sj. repeat split; try assumption.
    rewrite sectab_fresh by reflexivity.
    unfold CoffImage._load_sect_tab, bind. unfold CoffImage.HDR_ENT_SIZE.
    rewrite Hloop. unfold lift. rewrite Herr. reflexivity.
  - intros sects Hdup.
    destruct (table_load_dup sects Hdup) as (i & j & si & sj & Hij & Hi & Hj & Hname & _ & Herr).
    exists i, j, si, sj. repeat split; assumption.
Qed.

Lemma sectab_iteration_witness :
  (exists tab img' h',
     CoffImage.sectab (image_of 1%positive img_two) {[1%positive := img_two]}
     = inr ((tab, img'), h') /\
     len (CoffSectionTable.__iter__ tab) = 2 /\
     NoDup (names (CoffSectionTable.__iter__ tab))) /\
  (exists name,
     CoffImage.sectab (image_of 1%positive img_dup) {[1%positive := img_dup]}
     = inl (MemoryError (DuplicateSection name))).
Proof.
  split.
  - assert (Hbuf : ({[1%positive := img_two]} : heap) !! 1%positive = Some img_two)
      by reflexivity.
    assert (Hload : CoffImage._load 1%positive ({[1%positive := img_two]} : heap)
                    = inr (image_of 1%positive img_two, {[1%positive := img_two]}))
      by (vm_compute; reflexivity).
    destruct (sectab_iteration _ _ _ _ Hbuf Hload) as (Hiter & _ & _).
    destruct (CoffImage.sectab (image_of 1%positive img_two) {[1%positive := img_two]})
      as [e|[[tab img'] h']] eqn:Hrun; [vm_compute in Hrun; discriminate Hrun|].
    destruct (Hiter _ _ _ eq_refl) as (Hlen & _ & Hnd).
    exists tab, img', h'. split; [reflexivity|]. split; [exact Hlen | exact Hnd].
  - assert (Hbuf : ({[1%positive := img_dup]} : heap) !! 1%positive = Some img_dup)
      by reflexivity.
    assert (Hload : CoffImage._load 1%positive ({[1%positive := img_dup]} : heap)
                    = inr (image_of 1%positive img_dup, {[1%positive := img_dup]}))
      by (vm_compute; reflexivity).
    destruct (sectab_iteration _ _ _ _ Hbuf Hload) as (_ & Hdup & _).
    assert (Hloop : exists sects,
               CoffImage._load_sects (image_of 1%positive img_dup)
                 (seqZ 0 (CoffImage._nsects (image_of 1%positive img_dup))) 50 []
                 {[1%positive := img_dup]}
               = inr (sects, {[1%positive := img_dup]}) /\
               ~ NoDup (names sects)).
    { eexists. split; [vm_compute; reflexivity|].
      intros Hnd. apply NoDup_cons in Hnd as [Hnotin _]. apply Hnotin.
      apply list_elem_of_here. }
    destruct Hloop as (sects & Hloop & Hnd).
    destruct (Hdup sects Hloop Hnd) as (i & j & si & sj & _ & _ & _ & _ & Herr).
    exists (CoffSection._name sj). exact Herr.
Defined.

(** ** Data lengths *)

(** C4: a constructed section whose flags have one of the bits 0x20
    (TEXT), 0x40 (DATA), 0x80 (BSS) set has dlen = raw length times the
    image's multiplier, which is 2 for the target ids 0x9D and 0x98 and 1
    for every other id; with none of the bits set, dlen is the raw length.
    This holds of [CoffSection._load] called with the image's multiplier,
    and so of every section of the image's table, whose raw length and
    flags are fields 4 and 10 of its entry. *)
Theorem section_dlen_scaling (h : heap) (data : loc) (buf : list byte) (img : CoffImage.t) :
  h !! data = Some buf ->
  CoffImage._load data h = inr (img, h) ->
  let any_alloc_bit flags := Z.testbit flags 5 || Z.testbit flags 6 || Z.testbit flags 7 in
  let mult := if decide (CoffImage._tid img = 0x9D \/ CoffImage._tid img = 0x98)
              then 2 else 1 in
  CoffImage._blen img = mult /\
  (forall name idx ent s h',
     CoffSection._load name idx ent (CoffImage._data img) (CoffImage._blen img) h
     = inr (s, h') ->
     (any_alloc_bit (ent !!! 10%nat) = true ->
      CoffSection._dlen s = ent !!! 4%nat * mult) /\
     (any_alloc_bit (ent !!! 10%nat) = false ->
      CoffSection._dlen s = ent !!! 4%nat)) /\
  (forall tab img' h' (i : nat) s,
     CoffImage.sectab img h = inr ((tab, img'), h') ->
     CoffSectionTable.__iter__ tab !! i = Some s ->
     let raw := ent_field buf (50 + 48 * Z.of_nat i) 4 in
     let flags := ent_field buf (50 + 48 * Z.of_nat i) 10 in
     (any_alloc_bit flags = true -> CoffSection._dlen s = raw * mult) /\
     (any_alloc_bit flags = false -> CoffSection._dlen s = raw)).
Proof.
  intros Hbuf Hload. cbv zeta.
  destruct (load_ok _ _ _ _ _ Hbuf Hload) as (_ & -> & _).
  change (CoffImage._tid (image_of data buf)) with (hdr_tid buf).
  change (CoffImage._blen (image_of data buf))
    with (default 1 (CoffImage._blens !! hdr_tid buf)).
  change (CoffImage._data (image_of data buf)) with data.
  rewrite blens_multiplier. fold (multiplier (hdr_tid buf)).
  split; [reflexivity|]. split.
  - intros name idx ent s h' Hsect.
    destruct name as [nm|]; [|discriminate].
    destruct (le_lt_dec 11 (length ent)) as [Hlen|Hshort];
      [|rewrite (section_load_short _ _ _ _ _ _ Hshort) in Hsect; discriminate].
    rewrite (section_load_eq _ _ _ _ _ _ _ Hbuf Hlen) in Hsect. cbv zeta in Hsect.
    destruct (_ >? _); [discriminate|]. injection Hsect as <- <-.
    cbn [CoffSection._dlen]. rewrite is_allocated_bits.
    split; intros ->; reflexivity.
  - intros tab img' h' i s Hrun Hs.
    rewrite sectab_fresh in Hrun by reflexivity.
    destruct (CoffImage._load_sect_tab _ h) as [e|[tab0 h0]] eqn:Htab; [discriminate|].
    injection Hrun as <- <- <-.
    destruct (load_sect_tab_spec (image_of data buf) buf _ _ _ Hbuf Htab)
      as (_ & _ & _ & Hent).
    pose proof (soe_dlen _ _ _ _ _ (Hent _ _ Hs)) as Hd.
    rewrite is_allocated_bits in Hd. cbn [CoffImage._blen image_of] in Hd.
    rewrite blens_multiplier in Hd.
    split; intros Hb; rewrite Hb in Hd; exact Hd.
Qed.

Lemma section_dlen_scaling_witness :
  exists tab img' h' s,
    CoffImage.sectab (image_of 1%positive img_two) {[1%positive := img_two]}
    = inr ((tab, img'), h') /\
    CoffSectionTable.__iter__ tab !! 0%nat = Some s /\
    CoffSection._dlen s = ent_field img_two 50 4 * 2.
Proof.
  assert (Hbuf : ({[1%positive := img_two]} : heap) !! 1%positive = Some img_two)
    by reflexivity.
  assert (Hload : CoffImage._load 1%positive ({[1%positive := img_two]} : heap)
                  = inr (image_of 1%positive img_two, {[1%positive := img_two]}))
    by (vm_compute; reflexivity).
  destruct (section_dlen_scaling _ _ _ _ Hbuf Hload) as (_ & _ & Htab).
  destruct (CoffImage.sectab (image_of 1%positive img_two) {[1%positive := img_two]})
    as [e|[[tab img'] h']] eqn:Hrun; [vm_compute in Hrun; discriminate Hrun|].
  destruct (CoffSectionTable.__iter__ tab !! 0%nat) as [s|] eqn:Hs.
  2:{ exfalso. vm_compute in Hrun. injection Hrun as <- _ _. discriminate Hs. }
  exists tab, img', h', s. split; [reflexivity|]. split; [exact Hs|].
  destruct (Htab _ _ _ _ _ eq_refl Hs) as [Hscaled _].
  apply Hscaled. vm_compute. reflexivity.
Defined.

(** ** Construction looks at the header only *)

(** The outcome of the header checks, given the buffer length and the
    first 50 bytes. *)
Lemma load_header_only (h1 h2 : heap) (d1 d2 : loc) (buf1 buf2 : list byte) :
  h1 !! d1 = Some buf1 -> h2 !! d2 = Some buf2 ->
  len buf1 = len buf2 -> take 50 buf1 = take 50 buf2 ->
  match CoffImage._load d1 h1, CoffImage._load d2 h2 with
  | inl e1, inl e2 => e1 = e2
  | inr (img1, h1'), inr (img2, h2') =>
      h1' = h1 /\ h2' = h2 /\ img2 = with_data img1 d2
  | _, _ => False
  end.
Proof.
  intros Hb1 Hb2 Hlen Htake.
  rewrite (load_chain _ _ _ Hb1), (load_chain _ _ _ Hb2).
  assert (Hf : forall off w, (off + w <= 50)%nat ->
                             field_at buf1 off w = field_at buf2 off w).
  { intros off w Hle.
    rewrite <- (field_at_take buf1 50 off w Hle), <- (field_at_take buf2 50 off w Hle).
    rewrite Htake. reflexivity. }
  unfold image_of, strtab_end, strtab_len, sectab_end, strtab_addr.
  unfold hdr_nsects, hdr_symtab_addr, hdr_nsyms, hdr_tid, hdr_magic, hdr_entry.
  rewrite <- Hlen, <- !(Hf _ _) by lia.
  repeat (match goal with
          | |- context [if ?c then _ else _] => destruct c; [reflexivity|]
          end).
  repeat split.
Qed.

(** C8: whether construction succeeds is decided by the first 50 bytes
    (checked against the buffer's length): the bytes after them are not
    read, so a valid header is accepted whatever its section entries hold;
    construction leaves the section table unbuilt and raises none of the
    section errors; an image with an absent name, an undecodable name, an
    out-of-bounds data extent or a duplicate name is constructed, and its
    error is raised when [sectab] is accessed. *)
Theorem construction_defers_sections :
  (forall (h : heap) (data : loc) (buf tail : list byte),
     h !! data = Some buf -> 50 <= len buf ->
     length tail = length (drop 50 buf) ->
     match CoffImage._load data h,
           CoffImage._load data (<[data := take 50 buf ++ tail]> h) with
     | inl e1, inl e2 => e1 = e2
     | inr (img1, _), inr (img2, _) => img2 = img1
     | _, _ => False
     end) /\
  (forall (h h' : heap) (data : loc) (buf : list byte) (img : CoffImage.t),
     h !! data = Some buf -> CoffImage._load data h = inr (img, h') ->
     h' = h /\ CoffImage._sectab img = None) /\
  (forall (h : heap) (data : loc) (buf : list byte) (e : exn),
     h !! data = Some buf -> CoffImage._load data h = inl e ->
     ~ is_section_error e) /\
  (forall buf e,
     (buf, e) ∈ [(img_noname, MemoryError (SectionNoName 0));
                 (img_undecodable, UnicodeDecodeError);
                 (img_baddata, MemoryError (SectionBadData 0));
                 (img_dup, MemoryError (DuplicateSection ".text"))] ->
     exists img,
       CoffImage._load 1%positive {[1%positive := buf]}
       = inr (img, {[1%positive := buf]}) /\
       CoffImage.sectab img {[1%positive := buf]} = inl e).
Proof.
  split; [|split; [|split]].
  - intros h data buf tail Hbuf Hge Htail.
    assert (Hb2 : <[data := take 50 buf ++ tail]> h !! data = Some (take 50 buf ++ tail))
      by apply lookup_insert_eq.
    assert (Hl50 : length (take 50 buf) = 50%nat).
    { rewrite length_take. unfold len in Hge. lia. }
    assert (Hlen : len buf = len (take 50 buf ++ tail)).
    { unfold len. rewrite length_app, Htail, length_drop, Hl50.
      unfold len in Hge. lia. }
    assert (Htake : take 50 buf = take 50 (take 50 buf ++ tail)).
    { rewrite take_app_length' by (symmetry; exact Hl50). reflexivity. }
    pose proof (load_header_only _ _ _ _ _ _ Hbuf Hb2 Hlen Htake) as Hsame.
    destruct (CoffImage._load data h) as [e1|[img1 h1]] eqn:Hload;
      destruct (CoffImage._load data (<[data := take 50 buf ++ tail]> h))
        as [e2|[img2 h2]];
      try exact Hsame.
    destruct Hsame as (-> & _ & ->).
    destruct (load_ok _ _ _ _ _ Hbuf Hload) as (_ & -> & _).
    reflexivity.
  - intros h h' data buf img Hbuf Hload.
    destruct (load_ok _ _ _ _ _ Hbuf Hload) as (-> & -> & _).
    split; reflexivity.
  - intros h data buf e Hbuf Hload. rewrite (load_chain _ _ _ Hbuf) in Hload.
    repeat (match type of Hload with
            | (if ?c then _ else _) = _ =>
                destruct c; [injection Hload as <-; cbn; tauto|]
            end).
    discriminate.
  - intros buf e Hin.
    exists (image_of 1%positive buf).
    repeat (apply elem_of_cons in Hin as [Heq|Hin];
            [injection Heq as -> ->; split; vm_compute; reflexivity|]).
    inversion Hin.
Qed.

(** ** [copy_sects]: first match and frame *)

(** C7: in [copy_sects] the physical range of a section is tested before
    its virtual range, so a section whose physical range fits the window
    is copied at offset paddr - addr whether or not the virtual range fits
    too; the virtual offset is used only when the physical range does not
    fit; a section fitting neither is skipped without error.  The call
    itself, on the constructed image or on the image that already holds
    its table, runs to the end, keeps the length of the destination,
    leaves every destination byte outside the ranges of the copied
    sections as it was, and puts at every index covered by a copied
    section the byte of the last such section of the table, taken at the
    offset it was copied at (the physical one when it fits) from the image
    buffer as it stood at that section's turn, which is the buffer of the
    start when the destination is another object. *)
Theorem copy_sects_first_match_frame (h : heap) (data dst : loc)
    (buf d : list byte) (img : CoffImage.t) (addr : Z) :
  h !! data = Some buf ->
  h !! dst = Some d ->
  CoffImage._load data h = inr (img, h) ->
  let end_addr := addr + len d in
  let phys_fits s :=
    addr <= CoffSection._paddr s /\
    CoffSection._paddr s + CoffSection._dlen s <= end_addr in
  let virt_fits s :=
    addr <= CoffSection._vaddr s /\
    CoffSection._vaddr s + CoffSection._dlen s <= end_addr in
  let copied_at s off :=
    (phys_fits s /\ off = CoffSection._paddr s - addr) \/
    (~ phys_fits s /\ virt_fits s /\ off = CoffSection._vaddr s - addr) in
  let placed (off : Z) s :=
    take (Z.to_nat off) d ++ section_bytes buf s ++
    drop (Z.to_nat (off + CoffSection._dlen s)) d in
  (forall s,
     CoffSection._data s = data -> extent_ok (len buf) s -> phys_fits s ->
     exists h',
       CoffImage.copy_sect addr end_addr dst s h = inr (tt, h') /\
       h' !! dst = Some (placed (CoffSection._paddr s - addr) s)) /\
  (forall s,
     CoffSection._data s = data -> extent_ok (len buf) s ->
     ~ phys_fits s -> virt_fits s ->
     exists h',
       CoffImage.copy_sect addr end_addr dst s h = inr (tt, h') /\
       h' !! dst = Some (placed (CoffSection._vaddr s - addr) s)) /\
  (forall s,
     ~ phys_fits s -> ~ virt_fits s ->
     CoffImage.copy_sect addr end_addr dst s h = inr (tt, h)) /\
  (forall tab img1 h1,
     CoffImage.sectab img h = inr ((tab, img1), h1) ->
     forall self h2 buf2 d2,
       (self = img /\ h2 = h) \/ self = img1 ->
       h2 !! data = Some buf2 -> len buf2 = len buf ->
       h2 !! dst = Some d2 -> len d2 = len d ->
       exists h' d',
         CoffImage.copy_sects self addr dst h2 = inr (img1, h') /\
         h' !! dst = Some d' /\ length d' = length d2 /\
         (forall i : nat,
            (forall s off, s ∈ CoffSectionTable.__iter__ tab -> copied_at s off ->
                           ~ (off <= Z.of_nat i < off + CoffSection._dlen s)) ->
            d' !! i = d2 !! i) /\
         (forall pre s post off (i : nat),
            CoffSectionTable.__iter__ tab = pre ++ s :: post ->
            copied_at s off ->
            off <= Z.of_nat i < off + CoffSection._dlen s ->
            (forall s' off', s' ∈ post -> copied_at s' off' ->
                             ~ (off' <= Z.of_nat i < off' + CoffSection._dlen s')) ->
            exists hb bufb,
              for_each (CoffImage.copy_sect addr end_addr dst) pre h2 = inr (tt, hb) /\
              hb !! data = Some bufb /\
              (dst <> data -> bufb = buf2) /\
              d' !! i
              = bufb !! Z.to_nat (CoffSection._daddr s + (Z.of_nat i - off)))).
Proof.
  intros Hbuf Hdst Hload. cbv zeta.
  destruct (load_ok _ _ _ _ _ Hbuf Hload) as (_ & -> & _).
  assert (Hstep : forall s off,
            CoffSection._data s = data -> extent_ok (len buf) s ->
            copy_offset addr (addr + len d) s = Some off ->
            exists h',
              CoffImage.copy_sect addr (addr + len d) dst s h = inr (tt, h') /\
              h' !! dst = Some (take (Z.to_nat off) d ++ section_bytes buf s ++
                                drop (Z.to_nat (off + CoffSection._dlen s)) d)).
  { intros s off Hsd Hext Hoff.
    assert (Hbuf' : h !! CoffSection._data s = Some buf) by (rewrite Hsd; exact Hbuf).
    destruct (copy_sect_copied addr dst s h d buf off Hdst Hbuf' Hext Hoff)
      as (l & _ & Hrun).
    eexists. split; [exact Hrun|].
    rewrite lookup_insert_eq. f_equal.
    destruct (copy_offset_range _ _ _ _ Hoff) as [Ho1 Ho2].
    destruct Hext as (_ & Hl0 & _).
    apply py_setslice_inside; lia. }
  split; [|split; [|split]].
  - intros s Hsd Hext [Hp1 Hp2]. apply (Hstep s _ Hsd Hext).
    apply copy_offset_Some. left. auto.
  - intros s Hsd Hext Hnp [Hv1 Hv2]. apply (Hstep s _ Hsd Hext).
    apply copy_offset_Some. right. auto.
  - intros s Hnp Hnv. apply copy_sect_skipped. apply copy_offset_None. auto.
  - intros tab img1 h1 Hrun self h2 buf2 d2 Hself Hbuf2 Hblen Hdst2 Hdlen.
    pose proof Hrun as Hrun0.
    rewrite sectab_fresh in Hrun by reflexivity.
    destruct (CoffImage._load_sect_tab _ h) as [e|[tab0 h0]] eqn:Htab; [discriminate|].
    destruct (load_sect_tab_spec (image_of data buf) buf _ _ _ Hbuf Htab) as (-> & _).
    injection Hrun as <- <-. subst h1.
    assert (Hwf : forall s, s ∈ CoffSectionTable._sects tab0 ->
              CoffSection._data s = data /\ extent_ok (len buf2) s).
    { rewrite Hblen. exact (image_sections_wf _ _ _ _ _ Hbuf Htab). }
    rewrite <- Hdlen.
    destruct (for_each_copy addr (len d2) dst data (CoffSectionTable._sects tab0)
                h2 d2 buf2 Hdst2 eq_refl Hbuf2 Hwf)
      as (h' & d' & buf' & Hloop & Hd' & Hlen' & _ & _ & Hframe & _).
    exists h', d'. split; [|split; [exact Hd'|split; [exact Hlen'|split]]].
    + destruct Hself as [[-> ->] | ->].
      * assert (d2 = d) by congruence. subst d2.
        unfold CoffImage.copy_sects, bind at 1, py_len, bind at 1.
        rewrite (read_lookup _ _ _ Hdst). unfold ret at 1.
        unfold bind at 1. rewrite Hrun0.
        unfold bind, CoffSectionTable.__iter__. rewrite Hloop. reflexivity.
      * rewrite (copy_sects_cached (CoffImage.set_sectab (image_of data buf) tab0)
                   tab0 addr dst h2 d2 eq_refl Hdst2), Hloop.
        reflexivity.
    + intros i Hi. apply Hframe. intros s off Hin Hoff.
      apply (Hi s off Hin). apply copy_offset_Some in Hoff.
      destruct Hoff as [(? & ? & ?)|(? & ? & ? & ?)]; [left | right]; auto.
    + intros pre s post off i Hsplit Hat Hi Hlast.
      assert (Hoff : copy_offset addr (addr + len d2) s = Some off).
      { apply copy_offset_Some.
        destruct Hat as [([? ?] & ?)|(? & [? ?] & ?)]; [left | right]; auto. }
      assert (Hlast' : forall s' off', s' ∈ post ->
                copy_offset addr (addr + len d2) s' = Some off' ->
                ~ (off' <= Z.of_nat i < off' + CoffSection._dlen s')).
      { intros s' off' Hin Hoff'. apply (Hlast s' off' Hin).
        apply copy_offset_Some in Hoff'.
        destruct Hoff' as [(? & ? & ?)|(? & ? & ? & ?)]; [left | right]; auto. }
      destruct (for_each_copy_last addr (len d2) dst data _ h2 h' d2 d' buf2
                  Hdst2 eq_refl Hbuf2 Hwf Hloop Hd' pre s post off i Hsplit Hoff Hi Hlast')
        as (hb & bufb & Hpre & Hbufb & _ & Hsame & Hbyte).
      exists hb, bufb. repeat split; assumption.
Qed.

Lemma copy_sects_first_match_frame_witness :
  exists img' h' d',
    CoffImage.copy_sects (image_of 1%positive img_two) 0x80000 2%positive store_two
    = inr (img', h') /\
    h' !! 2%positive = Some d' /\ length d' = 8%nat /\
    d' !! 5%nat = img_two !! 151%nat /\
    d' !! 7%nat = Some xff.
Proof.
  assert (Hbuf : store_two !! 1%positive = Some img_two) by reflexivity.
  assert (Hdst : store_two !! 2%positive = Some (replicate 8 xff)) by reflexivity.
  assert (Hload : CoffImage._load 1%positive store_two
                  = inr (image_of 1%positive img_two, store_two))
    by (vm_compute; reflexivity).
  destruct (copy_sects_first_match_frame _ _ _ _ _ _ 0x80000 Hbuf Hdst Hload)
    as (_ & _ & _ & Hcall).
  destruct (CoffImage.sectab (image_of 1%positive img_two) store_two)
    as [e|[[tab img1] h1]] eqn:Hrun; [vm_compute in Hrun; discriminate Hrun|].
  assert (Htab : CoffSectionTable.__iter__ tab = [sect_text] ++ sect_data :: []).
  { vm_compute in Hrun. injection Hrun as <- _ _. reflexivity. }
  destruct (Hcall _ _ _ eq_refl (image_of 1%positive img_two) store_two
              img_two (replicate 8 xff) (or_introl (conj eq_refl eq_refl))
              Hbuf eq_refl Hdst eq_refl)
    as (h' & d' & Hcopy & Hd' & Hlen & Hframe & Hplace).
  exists img1, h', d'. split; [exact Hcopy|]. split; [exact Hd'|].
  split; [exact Hlen|]. split.
  - destruct (Hplace [sect_text] sect_data [] 4 5%nat Htab)
      as (hb & bufb & _ & _ & Hsame & ->).
    + left. split; [split; vm_compute; congruence | reflexivity].
    + cbn. lia.
    + intros s' off' Hin. inversion Hin.
    + rewrite (Hsame ltac:(discriminate)). reflexivity.
  - rewrite Hframe; [reflexivity|].
    intros s off Hin Hat. rewrite Htab in Hin.
    apply elem_of_cons in Hin as [->|Hin];
      [|apply elem_of_cons in Hin as [->|Hin]; [|inversion Hin]];
      cbn in Hat; destruct Hat as [[_ ->]|(_ & _ & ->)]; cbn; lia.
Defined.

(** ** Where the code departs from its documentation *)

(** C3 at its failing input.  The docstring of [copy_sects] promises to
    copy "the sections allocated within target memory", but the loop never
    consults [is_allocated]: the section [.dbg] of [img_dbg] has none of
    the bits 0x20, 0x40, 0x80 set, its physical range [0x10, 0x12) fits
    the window [0x10, 0x13), and its two bytes are copied into the
    destination. *)
Theorem copy_sects_copies_unallocated :
  exists img tab s img' h',
    CoffImage._load 1%positive store_dbg = inr (img, store_dbg) /\
    CoffImage.sectab img store_dbg = inr ((tab, img'), store_dbg) /\
    CoffSectionTable.__iter__ tab = [s] /\
    CoffSectionFlags.is_allocated (CoffSection._flags s) = false /\
    store_dbg !! 2%positive = Some [xff; xff; xff] /\
    CoffImage.copy_sects img 0x10 2%positive store_dbg = inr (img', h') /\
    h' !! 2%positive = Some [xaa; xbb; xff].
Proof.
  destruct (CoffImage.sectab (image_of 1%positive img_dbg) store_dbg)
    as [e|[[tab img1] h1]] eqn:Hrun; [vm_compute in Hrun; discriminate Hrun|].
  destruct (CoffImage.copy_sects (image_of 1%positive img_dbg) 0x10 2%positive store_dbg)
    as [e|[img2 h']] eqn:Hcopy; [vm_compute in Hcopy; discriminate Hcopy|].
  exists (image_of 1%positive img_dbg), tab, sect_dbg, img1, h'.
  rewrite Hrun, Hcopy.
  vm_compute in Hrun. injection Hrun as <- <- <-.
  vm_compute in Hcopy. injection Hcopy as <- <-.
  repeat split; vm_compute; reflexivity.
Qed.

(** The part of C5 the code does satisfy: on an entry with its fields
    (at least eleven, as [struct.unpack] gives twelve) [CoffSection._load]
    raises exactly for an absent name or an extent beyond the buffer, the
    name being checked first; on a shorter tuple with a name, indexing it
    raises [IndexError]. *)
Lemma section_load_errors (name : option string) (idx : Z) (ent : list Z)
    (data : loc) (blen : Z) (h : heap) (buf : list byte) (e : exn) :
  h !! data = Some buf ->
  let dlen := if CoffSectionFlags.is_allocated (ent !!! 10%nat)
              then ent !!! 4%nat * blen else ent !!! 4%nat in
  CoffSection._load name idx ent data blen h = inl e <->
  (name = None /\ e = MemoryError (SectionNoName idx)) \/
  (name <> None /\ (length ent < 11)%nat /\ e = IndexError) \/
  (name <> None /\ (11 <= length ent)%nat /\ ent !!! 5%nat + dlen > len buf /\
   e = MemoryError (SectionBadData idx)).
Proof.
  intros Hbuf dlen. subst dlen.
  destruct name as [nm|].
  - destruct (le_lt_dec 11 (length ent)) as [Hlen|Hshort].
    + rewrite (section_load_eq _ _ _ _ _ _ _ Hbuf Hlen). cbv zeta.
      destruct (Z.gtb_spec (ent !!! 5%nat +
          (if CoffSectionFlags.is_allocated (ent !!! 10%nat)
           then ent !!! 4%nat * blen else ent !!! 4%nat)) (len buf)) as [Hbad|Hok].
      * split; [intros [= <-]; right; right; repeat split; [discriminate | lia | lia]|].
        intros [[? _]|[(_ & ? & _)|(_ & _ & _ & ->)]];
          [discriminate | lia | reflexivity].
      * split; [discriminate|].
        intros [[? _]|[(_ & ? & _)|(_ & _ & ? & _)]]; [discriminate | lia | lia].
    + rewrite (section_load_short _ _ _ _ _ _ Hshort).
      split; [intros [= <-]; right; left; repeat split; [discriminate | lia]|].
      intros [[? _]|[(_ & _ & ->)|(_ & ? & _)]]; [discriminate | reflexivity | lia].
  - assert (Hnone : CoffSection._load None idx ent data blen h
                    = inl (MemoryError (SectionNoName idx))) by reflexivity.
    rewrite Hnone.
    split; [intros [= <-]; left; split; reflexivity|].
    intros [[_ ->]|[(Hn & _)|(Hn & _)]]; [reflexivity | contradiction | contradiction].
Qed.

(** C5 at its failing input.  The [data] property is documented as "a
    mutable view of the section data within the image", but slicing the
    image's bytearray makes a new object: the section built over the
    buffer at location 1 returns its two bytes in a fresh object, and a
    write through that object changes the copy and leaves the buffer as
    it was. *)
Theorem section_data_is_copy :
  exists s l h1 h2,
    CoffSection._load (Some ".s") 0 ent_four 1%positive 1 store_four
    = inr (s, store_four) /\
    CoffSection.data s store_four = inr (l, h1) /\
    l <> CoffSection._data s /\
    h1 !! l = Some [x02; x03] /\
    setitem l 0 xff h1 = inr (tt, h2) /\
    h2 !! l = Some [xff; x03] /\
    h2 !! CoffSection._data s = Some [x01; x02; x03; x04].
Proof.
  exists sect_four, 2%positive,
    (<[2%positive := [x02; x03]]> store_four),
    (<[2%positive := [xff; x03]]> (<[2%positive := [x02; x03]]> store_four)).
  repeat split; try (vm_compute; reflexivity).
  vm_compute. discriminate.
Qed.

(** ** More on the loops and on name resolution *)

Lemma section_load_store (name : option string) (idx : Z) (ent : list Z)
    (data : loc) (blen : Z) (h h' : heap) (s : CoffSection.t) :
  CoffSection._load name idx ent data blen h = inr (s, h') -> h' = h.
Proof.
  unfold CoffSection._load. destruct name as [nm|]; [|discriminate].
  unfold bind, lift.
  repeat (match goal with
          | |- context [py_getitem ?l ?k] => destruct (py_getitem l k); [discriminate|]
          end).
  unfold py_len, bind, read. destruct (h !! data); [|discriminate].
  unfold ret. cbv zeta. destruct (_ >? _); [discriminate|].
  intros [= _ <-]. reflexivity.
Qed.

(** The loop of [_load_sect_tab] never changes the store. *)
Lemma load_sects_store (self : CoffImage.t) (idxs : list Z) :
  forall (addr : Z) (acc res : list CoffSection.t) (h h' : heap),
    CoffImage._load_sects self idxs addr acc h = inr (res, h') -> h' = h.
Proof.
  induction idxs as [|idx rest IH]; intros addr acc res h h' Hrun.
  - cbn in Hrun. injection Hrun as _ <-. reflexivity.
  - destruct (h !! CoffImage._data self) as [buf|] eqn:Hbuf.
    + rewrite (load_sects_cons _ _ _ _ _ _ _ Hbuf) in Hrun.
      destruct (struct_unpack _ _) as [e|ent]; [discriminate|].
      destruct (CoffImage._get_ent_name _ _ _ _ _) as [e|name]; [discriminate|].
      destruct (CoffSection._load _ _ _ _ _ h) as [e|[s h1]] eqn:Hs; [discriminate|].
      apply section_load_store in Hs as ->.
      apply (IH _ _ _ _ _ Hrun).
    + cbn in Hrun. unfold bind, read in Hrun. rewrite Hbuf in Hrun. discriminate.
Qed.

Lemma load_sect_tab_store (self : CoffImage.t) (h h' : heap) (tab : CoffSectionTable.t) :
  CoffImage._load_sect_tab self h = inr (tab, h') -> h' = h.
Proof.
  unfold CoffImage._load_sect_tab, bind.
  destruct (CoffImage._load_sects _ _ _ _ h) as [e|[sects h1]] eqn:Hloop; [discriminate|].
  apply load_sects_store in Hloop as ->.
  unfold lift. destruct (CoffSectionTable._load sects); [discriminate|].
  intros [= _ <-]. reflexivity.
Qed.

Lemma decode_error (bs : list byte) (e : exn) :
  decode bs = inl e -> e = UnicodeDecodeError.
Proof. unfold decode. destruct (utf8_valid bs); [discriminate|]. congruence. Qed.

Lemma get_str_error (data : list byte) (e : exn) :
  CoffImage._get_str data = inl e -> e = UnicodeDecodeError.
Proof. apply decode_error. Qed.

(** Name resolution raises nothing but a decoding error, and reports an
    absent name only for a string-table name whose offset lies at or
    beyond the end of the buffer. *)
Lemma get_ent_name_error (self : CoffImage.t) (data : list byte) (addr : Z)
    (has_str : bool) (offs : Z) (e : exn) :
  CoffImage._get_ent_name self data addr has_str offs = inl e ->
  e = UnicodeDecodeError.
Proof.
  unfold CoffImage._get_ent_name. destruct (_ >? 0); [|discriminate].
  destruct (CoffImage._get_str _) as [e'|s] eqn:Hs; [|discriminate].
  intros [= <-]. apply (get_str_error _ _ Hs).
Qed.

Lemma get_ent_name_None (self : CoffImage.t) (data : list byte) (addr : Z)
    (has_str : bool) (offs : Z) :
  CoffImage._get_ent_name self data addr has_str offs = inr None <->
  has_str = true /\ len data <= CoffImage._strtab_addr self + offs.
Proof.
  unfold CoffImage._get_ent_name, CoffImage.NAME_ENT_SIZE.
  destruct has_str.
  - destruct (Z.gtb_spec (len data - (CoffImage._strtab_addr self + offs)) 0).
    + destruct (CoffImage._get_str _); split; try discriminate; intros [_ ?]; lia.
    + split; [intros _; split; [reflexivity | lia] | reflexivity].
  - cbn. destruct (CoffImage._get_str _); split; try discriminate; intros [? _]; discriminate.
Qed.

(** Why the loop of [_load_sect_tab] stops: at the first entry whose name
    does not decode, is absent, or whose data extent leaves the buffer,
    every entry before it having decoded into a section.  As long as the
    entries lie in the buffer, unpacking never fails. *)
Lemma load_sects_error (self : CoffImage.t) (buf : list byte) (h : heap) :
  h !! CoffImage._data self = Some buf ->
  forall (idxs : list Z) (addr : Z) (acc : list CoffSection.t) (e : exn),
    0 <= addr -> addr + 48 * Z.of_nat (length idxs) <= len buf ->
    CoffImage._load_sects self idxs addr acc h = inl e ->
    exists (j : nat) (idx : Z),
      idxs !! j = Some idx /\
      (forall (k : nat) (idx_k : Z),
         (k < j)%nat -> idxs !! k = Some idx_k ->
         exists s, section_of_entry self buf idx_k (addr + 48 * Z.of_nat k) s) /\
      let a := addr + 48 * Z.of_nat j in
      let dlen := if CoffSectionFlags.is_allocated (ent_field buf a 10)
                  then ent_field buf a 4 * CoffImage._blen self
                  else ent_field buf a 4 in
      let name := CoffImage._get_ent_name self buf a
                    (bool_decide (ent_field buf a 0 = 0)) (ent_field buf a 1) in
      (e = UnicodeDecodeError /\ name = inl e) \/
      (e = MemoryError (SectionNoName idx) /\ name = inr None) \/
      (e = MemoryError (SectionBadData idx) /\ (exists nm, name = inr (Some nm)) /\
       ent_field buf a 5 + dlen > len buf).
Proof.
  intros Hbuf. induction idxs as [|idx rest IH]; intros addr acc e Ha Hfit Hrun.
  - discriminate.
  - rewrite (load_sects_cons _ _ _ _ _ _ _ Hbuf) in Hrun.
    pose proof (unpack_entry buf addr Ha) as Hent.
    cbn [length] in Hfit.
    destruct (struct_unpack _ _) as [e0|ent]; [destruct Hent as [_ ?]; lia|].
    destruct Hent as (Hext & Hent12 & Hfields).
    rewrite !Hfields in Hrun by lia.
    destruct (CoffImage._get_ent_name self buf addr _ _) as [e0|name] eqn:Hname.
    + injection Hrun as <-.
      exists 0%nat, idx. split; [reflexivity|].
      split; [intros k ? Hk; lia|]. cbv zeta.
      rewrite Z.mul_0_r, Z.add_0_r. left.
      split; [apply (get_ent_name_error _ _ _ _ _ _ Hname) | exact Hname].
    + rewrite (section_load_eq _ _ _ _ _ _ _ Hbuf) in Hrun by lia.
      rewrite !Hfields in Hrun by lia.
      destruct name as [nm|].
      * cbv zeta in Hrun.
        match type of Hrun with
        | context [if ?a >? ?b then _ else _] => destruct (Z.gtb_spec a b) as [Hbad|Hok]
        end.
        -- injection Hrun as <-.
           exists 0%nat, idx. split; [reflexivity|].
           split; [intros k ? Hk; lia|]. cbv zeta.
           rewrite Z.mul_0_r, Z.add_0_r. right. right.
           split; [reflexivity|]. split; [eauto | lia].
        -- unfold CoffSection.ENT_SIZE in Hrun.
           assert (Ha' : 0 <= addr + 48) by lia.
           assert (Hfit' : addr + 48 + 48 * Z.of_nat (length rest) <= len buf) by lia.
           destruct (IH _ _ _ Ha' Hfit' Hrun) as (j & idx' & Hj & Hbefore & Hcase).
           exists (S j), idx'. split; [exact Hj|]. split.
           ++ intros [|k] idx_k Hk Hidx; cbn in Hidx.
              ** injection Hidx as <-. rewrite Z.mul_0_r, Z.add_0_r.
                 exists {| CoffSection._name := nm; CoffSection._idx := idx;
                           CoffSection._paddr := ent_field buf addr 2;
                           CoffSection._vaddr := ent_field buf addr 3;
                           CoffSection._daddr := ent_field buf addr 5;
                           CoffSection._dlen :=
                             if CoffSectionFlags.is_allocated (ent_field buf addr 10)
                             then ent_field buf addr 4 * CoffImage._blen self
                             else ent_field buf addr 4;
                           CoffSection._flags := ent_field buf addr 10;
                           CoffSection._data := CoffImage._data self |}.
                 constructor; cbn; try reflexivity; try lia.
                 exact Hname.
              ** destruct (Hbefore k idx_k ltac:(lia) Hidx) as (s & Hs).
                 exists s.
                 replace (addr + 48 * Z.of_nat (S k))
                   with (addr + 48 + 48 * Z.of_nat k) by lia.
                 exact Hs.
           ++ replace (addr + 48 * Z.of_nat (S j))
                with (addr + 48 + 48 * Z.of_nat j) by lia.
              exact Hcase.
      * injection Hrun as <-.
        exists 0%nat, idx. split; [reflexivity|].
        split; [intros k ? Hk; lia|]. cbv zeta.
        rewrite Z.mul_0_r, Z.add_0_r. right. left. split; [reflexivity | exact Hname].
Qed.

Lemma byte_val_byte_of (n : Z) : 0 <= n < 256 -> byte_val (byte_of n) = n.
Proof.
  intros Hn. unfold byte_val, byte_of.
  destruct (Byte.of_N (Z.to_N n)) as [b|] eqn:Hb.
  - cbn. apply Byte.to_of_N in Hb. lia.
  - apply Byte.of_N_None_iff in Hb. lia.
Qed.

(** The scan of [_get_str]. *)
Lemma str_len_le (data : list byte) : (CoffImage.str_len data <= length data)%nat.
Proof.
  induction data as [|b rest IH]; cbn; [lia|].
  destruct (Byte.eqb b x00); lia.
Qed.

Lemma str_len_no_nul (data : list byte) :
  x00 ∉ take (CoffImage.str_len data) data.
Proof.
  induction data as [|b rest IH]; cbn; [apply not_elem_of_nil|].
  destruct (Byte.eqb b x00) eqn:Hb; cbn; [apply not_elem_of_nil|].
  apply not_elem_of_cons. split; [|exact IH].
  intros <-. apply Byte.eqb_false in Hb. contradiction.
Qed.

Lemma str_len_stop (data : list byte) :
  data !! CoffImage.str_len data = Some x00 \/ CoffImage.str_len data = length data.
Proof.
  induction data as [|b rest IH]; cbn; [right; reflexivity|].
  destruct (Byte.eqb b x00) eqn:Hb; cbn.
  - left. apply Byte.byte_dec_bl in Hb. congruence.
  - destruct IH as [IH|IH]; [left; exact IH | right; congruence].
Qed.

Lemma str_len_app_nul (bs rest : list byte) :
  x00 ∉ bs -> CoffImage.str_len (bs ++ x00 :: rest) = length bs.
Proof.
  induction bs as [|b bs IH]; intros Hnul; cbn; [reflexivity|].
  apply not_elem_of_cons in Hnul as [Hb Hbs].
  destruct (Byte.eqb b x00) eqn:Heq.
  - apply Byte.byte_dec_bl in Heq. congruence.
  - rewrite IH by exact Hbs. reflexivity.
Qed.

Lemma str_len_no_nul_all (bs : list byte) :
  x00 ∉ bs -> CoffImage.str_len bs = length bs.
Proof.
  induction bs as [|b bs IH]; intros Hnul; cbn; [reflexivity|].
  apply not_elem_of_cons in Hnul as [Hb Hbs].
  destruct (Byte.eqb b x00) eqn:Heq.
  - apply Byte.byte_dec_bl in Heq. congruence.
  - rewrite IH by exact Hbs. reflexivity.
Qed.

Lemma get_str_eq (data : list byte) :
  CoffImage._get_str data = decode (take (CoffImage.str_len data) data).
Proof.
  unfold CoffImage._get_str. pose proof (str_len_le data).
  rewrite py_slice_prefix by (unfold len; lia).
  rewrite Nat2Z.id. reflexivity.
Qed.

(** Bytes below 0x80 are well-formed UTF-8. *)
Lemma utf8_valid_ascii (bs : list byte) :
  Forall (fun b => byte_val b < 128) bs -> utf8_valid bs = true.
Proof.
  induction 1 as [|b bs Hb _ IH]; [reflexivity|].
  cbn [utf8_valid]. unfold in_range at 1.
  pose proof (byte_val_bounds b).
  destruct (Z.leb_spec 0 (byte_val b)); [|lia].
  destruct (Z.leb_spec (byte_val b) 127); [|lia].
  exact IH.
Qed.

Lemma load_loop_size (sects : list CoffSection.t) :
  forall tab tab' : gmap string CoffSection.t,
    CoffSectionTable._load_loop sects tab = inr tab' ->
    size tab' = (size tab + length sects)%nat.
Proof.
  induction sects as [|s rest IH]; intros tab tab' Hok; cbn in *.
  - injection Hok as <-. lia.
  - destruct (tab !! CoffSection._name s) eqn:Hs; [discriminate|].
    rewrite (IH _ _ Hok), map_size_insert_None by exact Hs. lia.
Qed.

Lemma get_str_inr (data : list byte) (s : string) :
  CoffImage._get_str data = inr s ->
  String.list_byte_of_string s = take (CoffImage.str_len data) data.
Proof.
  rewrite get_str_eq. unfold decode.
  destruct (utf8_valid _); [|discriminate]. intros [= <-].
  apply String.list_byte_of_string_of_list_byte.
Qed.

(** [copy_sects] on a freshly constructed image, step by step. *)
Lemma copy_sects_run (h : heap) (data dst : loc) (buf d : list byte) (addr : Z) :
  h !! data = Some buf ->
  h !! dst = Some d ->
  CoffImage.copy_sects (image_of data buf) addr dst h =
    match CoffImage._load_sect_tab (image_of data buf) h with
    | inl e => inl e
    | inr (tab, _) =>
        match for_each (CoffImage.copy_sect addr (addr + len d) dst)
                (CoffSectionTable._sects tab) h with
        | inl e => inl e
        | inr (_, h') => inr (CoffImage.set_sectab (image_of data buf) tab, h')
        end
    end.
Proof.
  intros Hbuf Hdst.
  unfold CoffImage.copy_sects, bind at 1, py_len, bind at 1.
  rewrite (read_lookup _ _ _ Hdst). unfold ret at 1.
  unfold bind at 1. rewrite sectab_fresh by reflexivity.
  destruct (CoffImage._load_sect_tab (image_of data buf) h) as [e|[tab h1]] eqn:Htab;
    [reflexivity|].
  apply load_sect_tab_store in Htab as ->.
  unfold bind, CoffSectionTable.__iter__.
  destruct (for_each _ _ h) as [e|[[] h']]; reflexivity.
Qed.

(** * Further properties of the code *)

(** ** The header of a constructed image *)

(** X1: a constructed image has a well-ordered layout: the section
    table starts after the 50 header bytes and ends at or before the
    symbol table, the string table starts at or after the symbol table
    and strictly inside the buffer; its target id is the 16-bit field at
    bytes 20-21 and is not 0, its entry the 32-bit field at bytes 38-41,
    its multiplier 1 or 2; it refers to the buffer it was built from, has
    no table yet, and construction changed nothing in the store. *)
Theorem constructed_image_layout (h h' : heap) (data : loc) (buf : list byte)
    (img : CoffImage.t) :
  h !! data = Some buf ->
  CoffImage._load data h = inr (img, h') ->
  h' = h /\
  CoffImage._data img = data /\ CoffImage._sectab img = None /\
  0 <= CoffImage._nsects img /\
  50 + 48 * CoffImage._nsects img <= hdr_symtab_addr buf /\
  hdr_symtab_addr buf <= CoffImage._strtab_addr img /\
  CoffImage._strtab_addr img < len buf /\
  CoffImage._strtab_addr img = hdr_symtab_addr buf + 18 * hdr_nsyms buf /\
  CoffImage.target_id img = field_at buf 20 2 /\
  1 <= CoffImage.target_id img < 2 ^ 16 /\
  CoffImage.entry img = field_at buf 38 4 /\
  (CoffImage._blen img = 1 \/ CoffImage._blen img = 2).
Proof.
  intros Hbuf Hload.
  destruct (load_ok _ _ _ _ _ Hbuf Hload)
    as (-> & -> & Hge & Hm & Ht & Hs & Hy & Hr).
  unfold CoffImage.target_id, CoffImage.entry, image_of; cbn.
  unfold sectab_end, strtab_addr in *.
  pose proof (field_at_u16 buf 2) as Bn. fold (hdr_nsects buf) in Bn.
  pose proof (field_at_u32 buf 12) as Bs. fold (hdr_nsyms buf) in Bs.
  pose proof (field_at_u16 buf 20) as Bt. fold (hdr_tid buf) in Bt.
  repeat split; try reflexivity; try lia.
  rewrite blens_multiplier. unfold multiplier. destruct (decide _); auto.
Qed.

Lemma constructed_image_layout_witness :
  exists img,
    CoffImage._load 1%positive {[1%positive := img_two]}
    = inr (img, {[1%positive := img_two]}) /\
    50 + 48 * CoffImage._nsects img <= hdr_symtab_addr img_two /\
    CoffImage._strtab_addr img < len img_two.
Proof.
  assert (Hbuf : ({[1%positive := img_two]} : heap) !! 1%positive = Some img_two)
    by reflexivity.
  assert (Hload : CoffImage._load 1%positive ({[1%positive := img_two]} : heap)
                  = inr (image_of 1%positive img_two, {[1%positive := img_two]}))
    by (vm_compute; reflexivity).
  exists (image_of 1%positive img_two). split; [exact Hload|].
  destruct (constructed_image_layout _ _ _ _ _ Hbuf Hload)
    as (_ & _ & _ & _ & Hsec & _ & Hstr & _).
  split; [exact Hsec | exact Hstr].
Defined.

(** X2: the string table always ends where the buffer ends, so the
    second half of the string-table test never fires: construction raises
    the invalid-string-table error exactly when the other checks pass and
    the string table is empty, that is, when the symbol table ends exactly
    at the end of the buffer. *)
Theorem string_table_error_iff (h : heap) (data : loc) (buf : list byte) :
  h !! data = Some buf ->
  strtab_end buf = len buf /\
  (CoffImage._load data h = inl (MemoryError BadStringTable) <->
   50 <= len buf /\ hdr_magic buf = 0x0108 /\ hdr_tid buf <> 0 /\
   50 + hdr_nsects buf * 48 <= hdr_symtab_addr buf /\
   hdr_symtab_addr buf + hdr_nsyms buf * 18 = len buf).
Proof.
  intros Hbuf. split; [unfold strtab_end, strtab_len; lia|].
  rewrite (load_chain _ _ _ Hbuf).
  pose proof (field_at_nonneg buf 12 4) as Bs. fold (hdr_nsyms buf) in Bs.
  unfold strtab_end, strtab_len, sectab_end, strtab_addr.
  destruct (Z.ltb_spec (len buf) 50); [split; [discriminate | lia]|].
  destruct (Z.eqb_spec (hdr_magic buf) 264); cbn [negb];
    [|split; [discriminate | lia]].
  destruct (Z.eqb_spec (hdr_tid buf) 0); [split; [discriminate | lia]|].
  destruct (Z.gtb_spec (50 + hdr_nsects buf * 48) (len buf));
    [split; [discriminate | lia]|].
  destruct (Z.gtb_spec (50 + hdr_nsects buf * 48) (hdr_symtab_addr buf));
    cbn [orb]; [split; [discriminate | lia]|].
  destruct (Z.gtb_spec (hdr_symtab_addr buf + hdr_nsyms buf * 18) (len buf));
    cbn [orb]; [split; [discriminate | lia]|].
  destruct (Z.leb_spec (len buf - (hdr_symtab_addr buf + hdr_nsyms buf * 18)) 0);
    cbn [orb]; [split; [intros _; lia | reflexivity]|].
  match goal with |- context [?a >? len buf] =>
    destruct (Z.gtb_spec a (len buf)); [lia|] end.
  split; [discriminate | lia].
Qed.

Lemma string_table_error_iff_witness :
  CoffImage._load 1%positive ({[1%positive := mk_hdr 0 50 0 1 0x0108 0]} : heap)
  = inl (MemoryError BadStringTable).
Proof.
  assert (Hbuf : ({[1%positive := mk_hdr 0 50 0 1 0x0108 0]} : heap) !! 1%positive
                 = Some (mk_hdr 0 50 0 1 0x0108 0)) by reflexivity.
  apply (string_table_error_iff _ _ _ Hbuf). vm_compute. intuition congruence.
Defined.

(** ** The lazily built section table *)

(** X3: a successful access to [sectab] leaves the store as it was and
    returns the image with the table stored in it and every other field,
    the buffer reference included, as before; every later access returns
    that same table and image without looking at the store, whatever the
    buffer has become in the meantime. *)
Theorem sectab_cached (img img' : CoffImage.t) (tab : CoffSectionTable.t)
    (h h' : heap) :
  CoffImage.sectab img h = inr ((tab, img'), h') ->
  h' = h /\
  img' = CoffImage.set_sectab img tab /\
  CoffImage._sectab img' = Some tab /\
  CoffImage._data img' = CoffImage._data img /\
  CoffImage._tid img' = CoffImage._tid img /\
  CoffImage._entry img' = CoffImage._entry img /\
  CoffImage._nsects img' = CoffImage._nsects img /\
  CoffImage._strtab_addr img' = CoffImage._strtab_addr img /\
  CoffImage._blen img' = CoffImage._blen img /\
  forall h2 : heap, CoffImage.sectab img' h2 = inr ((tab, img'), h2).
Proof.
  intros Hrun.
  assert (Hmain : h' = h /\ img' = CoffImage.set_sectab img tab).
  { unfold CoffImage.sectab in Hrun.
    destruct (CoffImage._sectab img) as [tab0|] eqn:Hcache.
    - injection Hrun as <- <- <-. split; [reflexivity|].
      destruct img; cbn in *. subst. reflexivity.
    - unfold bind in Hrun.
      destruct (CoffImage._load_sect_tab img h) as [e|[tab0 h0]] eqn:Htab;
        [discriminate|].
      injection Hrun as <- <- <-.
      apply load_sect_tab_store in Htab as ->. split; reflexivity. }
  destruct Hmain as [-> ->].
  repeat split; reflexivity.
Qed.

Lemma sectab_cached_witness :
  exists tab img',
    run (CoffImage.sectab (image_of 1%positive img_two)) {[1%positive := img_two]}
    = inr (tab, img') /\
    CoffImage.sectab img' ∅ = inr ((tab, img'), ∅).
Proof.
  destruct (CoffImage.sectab (image_of 1%positive img_two) {[1%positive := img_two]})
    as [e|[[tab img'] h']] eqn:Hrun; [vm_compute in Hrun; discriminate Hrun|].
  exists tab, img'. split; [unfold run; rewrite Hrun; reflexivity|].
  destruct (sectab_cached _ _ _ _ _ Hrun)
    as (_ & _ & _ & _ & _ & _ & _ & _ & _ & Hagain).
  apply Hagain.
Defined.

(** X4: on a constructed image whose buffer is unchanged, [sectab] can
    fail in four ways only, the first bad entry deciding.  Either there
    is an entry i below the section count, every entry before it having
    decoded into a section, such that the name of entry i does not decode
    (the decoding error is raised), or is a string-table name (first
    field 0) whose offset lies at or beyond the end of the buffer (no
    valid name, for i), or is resolved but the data extent of entry i
    ends beyond the buffer (no valid data, for i).  Or every entry has
    decoded, into the list the loop built, and the error names the first
    name of that list that an earlier section already bears.  Unpacking
    an entry never fails: the section-table check of construction covers
    them. *)
Theorem sectab_error_kinds (h : heap) (data : loc) (buf : list byte)
    (img : CoffImage.t) (e : exn) :
  h !! data = Some buf ->
  CoffImage._load data h = inr (img, h) ->
  CoffImage.sectab img h = inl e ->
  (exists i,
     0 <= i < CoffImage._nsects img /\
     (forall k, 0 <= k < i ->
        exists s, section_of_entry img buf k (50 + 48 * k) s) /\
     let a := 50 + 48 * i in
     let dlen := if CoffSectionFlags.is_allocated (ent_field buf a 10)
                 then ent_field buf a 4 * CoffImage._blen img
                 else ent_field buf a 4 in
     let name := CoffImage._get_ent_name img buf a
                   (bool_decide (ent_field buf a 0 = 0)) (ent_field buf a 1) in
     ((e = UnicodeDecodeError /\ name = inl UnicodeDecodeError) \/
      (e = MemoryError (SectionNoName i) /\ name = inr None /\
       ent_field buf a 0 = 0 /\
       len buf <= CoffImage._strtab_addr img + ent_field buf a 1) \/
      (e = MemoryError (SectionBadData i) /\ (exists nm, name = inr (Some nm)) /\
       ent_field buf a 5 + dlen > len buf))) \/
  (exists (sects : list CoffSection.t) (i j : nat) (si sj : CoffSection.t),
     CoffImage._load_sects img (seqZ 0 (CoffImage._nsects img)) 50 [] h
     = inr (sects, h) /\
     len sects = CoffImage._nsects img /\
     (forall (k : nat) s, sects !! k = Some s ->
        section_of_entry img buf (Z.of_nat k) (50 + 48 * Z.of_nat k) s) /\
     (i < j)%nat /\ sects !! i = Some si /\ sects !! j = Some sj /\
     CoffSection._name si = CoffSection._name sj /\
     NoDup (names (take j sects)) /\
     e = MemoryError (DuplicateSection (CoffSection._name sj))).
Proof.
  intros Hbuf Hload Hrun.
  destruct (load_ok _ _ _ _ _ Hbuf Hload) as (_ & -> & _ & _ & _ & Hfit & _).
  rewrite sectab_fresh in Hrun by reflexivity.
  unfold CoffImage._load_sect_tab, bind in Hrun.
  unfold CoffImage.HDR_ENT_SIZE in Hrun.
  pose proof (field_at_nonneg buf 2 2) as Hn. fold (hdr_nsects buf) in Hn.
  change (CoffImage._nsects (image_of data buf)) with (hdr_nsects buf) in *.
  assert (Hdata : h !! CoffImage._data (image_of data buf) = Some buf) by exact Hbuf.
  assert (H50 : 0 <= 50) by lia.
  destruct (CoffImage._load_sects _ _ _ _ h) as [e0|[sects h1]] eqn:Hloop.
  - injection Hrun as <-. left.
    assert (Hin : 50 + 48 * Z.of_nat (length (seqZ 0 (hdr_nsects buf))) <= len buf).
    { rewrite length_seqZ. unfold sectab_end in Hfit. lia. }
    destruct (load_sects_error _ _ _ Hdata _ _ _ _ H50 Hin Hloop)
      as (j & idx & Hj & Hbefore & Hcase).
    apply lookup_seqZ in Hj as [-> Hj]. cbv zeta in Hcase.
    rewrite Z.add_0_l in Hcase.
    exists (Z.of_nat j). split; [lia|]. split.
    + intros k Hk.
      destruct (Hbefore (Z.to_nat k) k) as (s & Hs); [lia | |].
      * apply lookup_seqZ. split; lia.
      * exists s. rewrite Z2Nat.id in Hs by lia. exact Hs.
    + cbv zeta.
      destruct Hcase as [[He Hname]|[[He Hnone]|(He & Hnm & Hbad)]].
      * left. split; [exact He|]. rewrite Hname, He. reflexivity.
      * right. left. split; [exact He|]. split; [exact Hnone|].
        apply get_ent_name_None in Hnone as [Hstr Hoff].
        split; [|exact Hoff]. apply bool_decide_eq_true in Hstr. exact Hstr.
      * right. right. split; [exact He|]. split; [exact Hnm | exact Hbad].
  - right.
    destruct (load_sects_spec _ _ _ Hdata _ _ _ _ _ H50 Hloop)
      as (-> & new & -> & Hlen & Hnew).
    cbn [app] in *. rewrite length_seqZ in Hlen.
    unfold lift in Hrun.
    destruct (CoffSectionTable._load new) as [e0|t] eqn:Ht; [|discriminate].
    injection Hrun as <-.
    assert (Hdup : ~ NoDup (names new)).
    { intros Hnd. apply table_load_ok_iff in Hnd as [t Hok]. congruence. }
    destruct (table_load_dup new Hdup)
      as (i & j & si & sj & Hij & Hi & Hj & Hname & Hfirst & Herr).
    exists new, i, j, si, sj.
    split; [reflexivity|]. split; [unfold len; lia|]. split.
    + intros k s Hs. apply (Hnew k (Z.of_nat k) s); [|exact Hs].
      apply lookup_seqZ. split; [lia|]. apply lookup_lt_Some in Hs. lia.
    + repeat split; try assumption. congruence.
Qed.

Lemma sectab_error_kinds_witness :
  exists e,
    CoffImage.sectab (image_of 1%positive img_baddata) {[1%positive := img_baddata]}
    = inl e /\
    ((exists i, 0 <= i < 1 /\
        (e = UnicodeDecodeError \/ e = MemoryError (SectionNoName i) \/
         e = MemoryError (SectionBadData i))) \/
     (exists name, e = MemoryError (DuplicateSection name))).
Proof.
  assert (Hbuf : ({[1%positive := img_baddata]} : heap) !! 1%positive = Some img_baddata)
    by reflexivity.
  assert (Hload : CoffImage._load 1%positive ({[1%positive := img_baddata]} : heap)
                  = inr (image_of 1%positive img_baddata, {[1%positive := img_baddata]}))
    by (vm_compute; reflexivity).
  destruct (CoffImage.sectab (image_of 1%positive img_baddata) {[1%positive := img_baddata]})
    as [e|r] eqn:Hrun; [|vm_compute in Hrun; discriminate Hrun].
  exists e. split; [reflexivity|].
  destruct (sectab_error_kinds _ _ _ _ _ Hbuf Hload Hrun)
    as [(i & Hi & _ & Hcase)
       |(sects & i & j & si & sj & _ & _ & _ & _ & _ & _ & _ & _ & He)].
  - left. exists i. split; [exact Hi|]. cbv zeta in Hcase.
    destruct Hcase as [(He & _)|[(He & _)|(He & _)]]; auto.
  - right. eauto.
Defined.

(** X5: every section of the table of a constructed image shares the
    image's buffer, has 32-bit addresses and a data extent inside the
    buffer; its [data] is a new object of exactly dlen bytes, byte k being
    byte daddr + k of the buffer, and reading it changes no existing
    object. *)
Theorem table_sections_inside (h h' : heap) (data : loc) (buf : list byte)
    (img img' : CoffImage.t) (tab : CoffSectionTable.t) :
  h !! data = Some buf ->
  CoffImage._load data h = inr (img, h) ->
  CoffImage.sectab img h = inr ((tab, img'), h') ->
  forall s, s ∈ CoffSectionTable.__iter__ tab ->
    CoffSection._data s = data /\
    0 <= CoffSection._paddr s < 2 ^ 32 /\
    0 <= CoffSection._vaddr s < 2 ^ 32 /\
    0 <= CoffSection._daddr s /\ 0 <= CoffSection._dlen s /\
    CoffSection._daddr s + CoffSection._dlen s <= len buf /\
    exists l bytes,
      h !! l = None /\
      CoffSection.data s h = inr (l, <[l := bytes]> h) /\
      len bytes = CoffSection._dlen s /\
      forall k : nat,
        Z.of_nat k < CoffSection._dlen s ->
        bytes !! k = buf !! (Z.to_nat (CoffSection._daddr s) + k)%nat.
Proof.
  intros Hbuf Hload Hrun s Hin.
  destruct (load_ok _ _ _ _ _ Hbuf Hload) as (_ & -> & _).
  rewrite sectab_fresh in Hrun by reflexivity.
  destruct (CoffImage._load_sect_tab _ h) as [e|[tab0 h0]] eqn:Htab; [discriminate|].
  injection Hrun as <- <- <-.
  destruct (image_sections_wf _ _ _ _ _ Hbuf Htab s Hin) as [Hdata Hext].
  destruct (load_sect_tab_spec (image_of data buf) buf _ _ _ Hbuf Htab)
    as (_ & _ & _ & Hent).
  unfold CoffSectionTable.__iter__ in Hin.
  apply list_elem_of_lookup in Hin as (j & Hj).
  destruct (Hent _ _ Hj) as [_ _ _ Hpa Hva _ _ _ _ _].
  split; [exact Hdata|].
  split; [rewrite Hpa; apply ent_field_bounds|].
  split; [rewrite Hva; apply ent_field_bounds|].
  pose proof Hext as (Hd & Hl & Hinside).
  split; [exact Hd|]. split; [exact Hl|]. split; [exact Hinside|].
  assert (Hbuf' : h !! CoffSection._data s = Some buf) by (rewrite Hdata; exact Hbuf).
  destruct (section_data_fresh s h buf Hbuf') as (l & Hfresh & Hrun).
  exists l, (section_bytes buf s). split; [exact Hfresh|]. split; [exact Hrun|].
  split; [apply section_bytes_len; exact Hext|].
  intros k Hk. apply section_bytes_lookup; assumption.
Qed.

Lemma table_sections_inside_witness :
  exists tab img' h',
    CoffImage.sectab (image_of 1%positive img_two) {[1%positive := img_two]}
    = inr ((tab, img'), h') /\
    forall s, s ∈ CoffSectionTable.__iter__ tab ->
              CoffSection._daddr s + CoffSection._dlen s <= len img_two.
Proof.
  assert (Hbuf : ({[1%positive := img_two]} : heap) !! 1%positive = Some img_two)
    by reflexivity.
  assert (Hload : CoffImage._load 1%positive ({[1%positive := img_two]} : heap)
                  = inr (image_of 1%positive img_two, {[1%positive := img_two]}))
    by (vm_compute; reflexivity).
  destruct (CoffImage.sectab (image_of 1%positive img_two) {[1%positive := img_two]})
    as [e|[[tab img'] h']] eqn:Hrun; [vm_compute in Hrun; discriminate Hrun|].
  exists tab, img', h'. split; [reflexivity|].
  intros s Hs.
  destruct (table_sections_inside _ _ _ _ _ _ _ Hbuf Hload Hrun s Hs)
    as (_ & _ & _ & _ & _ & Hinside & _).
  exact Hinside.
Defined.

(** ** Names and the name-keyed dictionary *)

(** X6: in a constructed table the dictionary has one key per section,
    [len] is the number of sections, and looking a section up by index
    and then by its name gives the same section back. *)
Theorem table_index_name_roundtrip (sects : list CoffSection.t)
    (t : CoffSectionTable.t) :
  CoffSectionTable._load sects = inr t ->
  CoffSectionTable.__len__ t = len sects /\
  size (CoffSectionTable._tab t) = length sects /\
  forall k s,
    CoffSectionTable.__getitem__ t (CoffSectionTable.KInt k) = inr s ->
    CoffSectionTable.__getitem__ t (CoffSectionTable.KStr (CoffSection._name s)) = inr s.
Proof.
  intros Hload.
  pose proof (table_load_sects _ _ Hload) as Hsects.
  assert (Hnd : NoDup (names sects)) by (apply table_load_ok_iff; eauto).
  split; [unfold CoffSectionTable.__len__; rewrite Hsects; reflexivity|].
  split.
  - unfold CoffSectionTable._load in Hload.
    destruct (CoffSectionTable._load_loop sects ∅) as [e|tab] eqn:Hl; [discriminate|].
    injection Hload as <-. cbn.
    rewrite (load_loop_size _ _ _ Hl), map_size_empty. lia.
  - intros k s Hk. cbn [CoffSectionTable.__getitem__] in *.
    rewrite Hsects in Hk.
    assert (Hi : exists i : nat, sects !! i = Some s).
    { apply py_getitem_inr in Hk as [[_ Hs]|[_ Hs]]; eauto. }
    destruct Hi as (i & Hi).
    rewrite (table_load_tab _ _ _ Hload).
    destruct (list_find _ sects) as [[i' s']|] eqn:Hf; cbn.
    + apply list_find_Some in Hf as (Hi' & Hn & _).
      assert (i' = i).
      { apply (NoDup_lookup (names sects) i' i (CoffSection._name s) Hnd);
          unfold names; rewrite list_lookup_fmap.
        - rewrite Hi'. cbn. congruence.
        - rewrite Hi. reflexivity. }
      subst i'. congruence.
    + exfalso. eapply list_find_None in Hf. rewrite Forall_forall in Hf.
      apply (Hf s); [eapply list_elem_of_lookup_2; exact Hi | reflexivity].
Qed.

Lemma table_index_name_roundtrip_witness :
  exists t,
    CoffSectionTable._load [sect_text; sect_data] = inr t /\
    CoffSectionTable.__getitem__ t (CoffSectionTable.KStr ".data") = inr sect_data.
Proof.
  destruct (CoffSectionTable._load [sect_text; sect_data]) as [e|t] eqn:Hload;
    [vm_compute in Hload; discriminate Hload|].
  exists t. split; [reflexivity|].
  destruct (table_index_name_roundtrip _ _ Hload) as (_ & _ & Hround).
  apply (Hround 1 sect_data).
  cbn [CoffSectionTable.__getitem__]. rewrite (table_load_sects _ _ Hload).
  reflexivity.
Defined.

(** X7: [_get_str] returns the longest prefix of its input without a NUL
    byte: the result is a prefix of the input, holds no NUL, and is
    followed by a NUL or by the end of the input; it can fail only by a
    decoding error; and a NUL-terminated run of ASCII bytes is read back
    exactly, whatever follows the NUL. *)
Theorem get_str_longest_prefix (data : list byte) :
  (forall s,
     CoffImage._get_str data = inr s ->
     let bs := String.list_byte_of_string s in
     (bs `prefix_of` data) /\ (x00 ∉ bs) /\
     (data !! length bs = Some x00 \/ length bs = length data)) /\
  (forall e, CoffImage._get_str data = inl e -> e = UnicodeDecodeError) /\
  (forall bs rest,
     data = bs ++ x00 :: rest -> x00 ∉ bs ->
     Forall (fun b => byte_val b < 128) bs ->
     CoffImage._get_str data = inr (String.string_of_list_byte bs)).
Proof.
  split; [|split].
  - intros s Hs. cbv zeta. rewrite (get_str_inr _ _ Hs).
    split; [apply prefix_take|]. split; [apply str_len_no_nul|].
    rewrite length_take. pose proof (str_len_le data).
    rewrite Nat.min_l by lia. apply str_len_stop.
  - apply get_str_error.
  - intros bs rest -> Hnul Hascii. rewrite get_str_eq.
    rewrite str_len_app_nul by exact Hnul.
    rewrite take_app_length. unfold decode.
    rewrite utf8_valid_ascii by exact Hascii. reflexivity.
Qed.

Lemma get_str_longest_prefix_witness :
  CoffImage._get_str (byte_of <$> [46; 116; 101; 120; 116; 0; 7; 7]) = inr ".text".
Proof.
  destruct (get_str_longest_prefix (byte_of <$> [46; 116; 101; 120; 116; 0; 7; 7]))
    as (_ & _ & Hback).
  rewrite (Hback (byte_of <$> [46; 116; 101; 120; 116]) (byte_of <$> [7; 7])).
  - vm_compute. reflexivity.
  - reflexivity.
  - intros Hin. repeat (apply elem_of_cons in Hin as [Hin|Hin]; [discriminate Hin|]).
    inversion Hin.
  - repeat constructor.
Defined.

(** X8: where a section name comes from.  An inline name is read from
    the 8 bytes of the entry and nowhere else: it is never absent, has at
    most 8 bytes, no NUL, and stops at a NUL or at the eighth byte.  A
    string-table name is absent exactly when its offset, counted from the
    string-table address, lies at or beyond the end of the buffer;
    otherwise it is the run of bytes from that offset up to a NUL or the
    end of the buffer. *)
Theorem ent_name_sources (self : CoffImage.t) (data : list byte) (addr offs : Z) :
  (0 <= addr -> addr + 8 <= len data ->
   CoffImage._get_ent_name self data addr false offs <> inr None /\
   forall s,
     CoffImage._get_ent_name self data addr false offs = inr (Some s) ->
     let bs := String.list_byte_of_string s in
     let start := Z.to_nat addr in
     (bs `prefix_of` take 8 (drop start data)) /\ (x00 ∉ bs) /\
     (length bs <= 8)%nat /\
     (data !! (start + length bs)%nat = Some x00 \/ length bs = 8%nat)) /\
  (0 <= CoffImage._strtab_addr self + offs ->
   (CoffImage._get_ent_name self data addr true offs = inr None <->
    len data <= CoffImage._strtab_addr self + offs) /\
   forall s,
     CoffImage._get_ent_name self data addr true offs = inr (Some s) ->
     let bs := String.list_byte_of_string s in
     let start := Z.to_nat (CoffImage._strtab_addr self + offs) in
     (bs `prefix_of` drop start data) /\ (x00 ∉ bs) /\
     (data !! (start + length bs)%nat = Some x00 \/
      (start + length bs)%nat = length data)).
Proof.
  split.
  - intros Ha Hin. split.
    + intros Hnone. apply get_ent_name_None in Hnone as [? _]. discriminate.
    + intros s Hs. cbv zeta.
      unfold CoffImage._get_ent_name, CoffImage.NAME_ENT_SIZE in Hs. cbn in Hs.
      rewrite py_slice_inside in Hs by lia.
      replace (addr + 8 - addr) with 8 in Hs by lia.
      change (Z.to_nat 8) with 8%nat in Hs.
      set (field := take 8 (drop (Z.to_nat addr) data)) in *.
      destruct (CoffImage._get_str field) as [e|s'] eqn:Hstr; [discriminate|].
      injection Hs as ->.
      rewrite (get_str_inr _ _ Hstr).
      assert (Hflen : length field = 8%nat).
      { unfold field. rewrite length_take, length_drop. unfold len in Hin. lia. }
      pose proof (str_len_le field) as Hle.
      split; [apply prefix_take|]. split; [apply str_len_no_nul|].
      rewrite length_take, Nat.min_l by lia.
      split; [lia|].
      destruct (str_len_stop field) as [Hnul|Hend]; [left | right; lia].
      pose proof (lookup_lt_Some _ _ _ Hnul) as Hlt.
      change (take 8 (drop (Z.to_nat addr) data) !! CoffImage.str_len field
              = Some x00) in Hnul.
      rewrite lookup_take_lt, lookup_drop in Hnul by lia. exact Hnul.
  - intros Hoff. split.
    + rewrite get_ent_name_None. split; [intros [_ ?]; assumption | auto].
    + intros s Hs. cbv zeta.
      unfold CoffImage._get_ent_name in Hs.
      set (start := CoffImage._strtab_addr self + offs) in *.
      destruct (Z.gtb_spec (len data - start) 0) as [Hpos|]; [|discriminate].
      rewrite py_slice_inside in Hs by lia.
      replace (start + (len data - start) - start) with (len data - start) in Hs by lia.
      rewrite take_ge in Hs by (rewrite length_drop; unfold len; lia).
      set (tail := drop (Z.to_nat start) data) in *.
      destruct (CoffImage._get_str tail) as [e|s'] eqn:Hstr; [discriminate|].
      injection Hs as ->.
      rewrite (get_str_inr _ _ Hstr).
      assert (Htlen : (Z.to_nat start + length tail)%nat = length data).
      { unfold tail. rewrite length_drop. unfold len in Hpos. lia. }
      pose proof (str_len_le tail) as Hle.
      split; [apply prefix_take|]. split; [apply str_len_no_nul|].
      rewrite length_take, Nat.min_l by lia.
      destruct (str_len_stop tail) as [Hnul|Hend]; [left | right; lia].
      change (drop (Z.to_nat start) data !! CoffImage.str_len tail = Some x00) in Hnul.
      rewrite lookup_drop in Hnul. exact Hnul.
Qed.

Lemma ent_name_sources_witness :
  CoffImage._get_ent_name (image_of 1%positive img_two) img_two 50 false 0
  <> inr None /\
  CoffImage._get_ent_name (image_of 1%positive img_noname) img_noname 50 true 0xFFFF
  = inr None.
Proof.
  destruct (ent_name_sources (image_of 1%positive img_two) img_two 50 0)
    as [Hinline _].
  destruct (ent_name_sources (image_of 1%positive img_noname) img_noname 50 0xFFFF)
    as [_ Hstr].
  split.
  - apply Hinline; vm_compute; congruence.
  - apply Hstr; vm_compute; congruence.
Defined.

(** ** What [copy_sects] writes *)

(** X9: assembling into a destination other than the image buffer puts
    the on-disk bytes of each copied section at its offset: destination
    byte i holds byte daddr + (i - off) of the buffer, for the last
    section of the table, copied at offset off, whose range covers i.  The
    image buffer itself is left as it was. *)
Theorem copy_sects_placement (h : heap) (data dst : loc) (buf d : list byte)
    (img img1 : CoffImage.t) (tab : CoffSectionTable.t) (addr : Z) :
  h !! data = Some buf ->
  h !! dst = Some d ->
  dst <> data ->
  CoffImage._load data h = inr (img, h) ->
  CoffImage.sectab img h = inr ((tab, img1), h) ->
  exists h' d',
    CoffImage.copy_sects img addr dst h = inr (img1, h') /\
    h' !! dst = Some d' /\ h' !! data = Some buf /\
    forall pre s post off (i : nat),
      CoffSectionTable.__iter__ tab = pre ++ s :: post ->
      copy_offset addr (addr + len d) s = Some off ->
      off <= Z.of_nat i < off + CoffSection._dlen s ->
      (forall s' off', s' ∈ post ->
         copy_offset addr (addr + len d) s' = Some off' ->
         ~ (off' <= Z.of_nat i < off' + CoffSection._dlen s')) ->
      d' !! i = buf !! Z.to_nat (CoffSection._daddr s + (Z.of_nat i - off)).
Proof.
  intros Hbuf Hdst Hne Hload Hrun.
  destruct (load_ok _ _ _ _ _ Hbuf Hload) as (_ & -> & _).
  rewrite sectab_fresh in Hrun by reflexivity.
  destruct (CoffImage._load_sect_tab _ h) as [e|[tab0 h0]] eqn:Htab; [discriminate|].
  pose proof (load_sect_tab_store _ _ _ _ Htab) as ->.
  injection Hrun as <- <-.
  pose proof (image_sections_wf _ _ _ _ _ Hbuf Htab) as Hwf.
  set (body := CoffImage.copy_sect addr (addr + len d) dst).
  destruct (for_each_copy addr (len d) dst data (CoffSectionTable._sects tab0)
              h d buf Hdst eq_refl Hbuf Hwf)
    as (h' & d' & buf' & Hloop & Hd' & Hlen' & Hdata' & _ & _ & Hother).
  fold body in Hloop.
  exists h', d'.
  split; [rewrite (copy_sects_run _ _ _ _ _ _ Hbuf Hdst), Htab; fold body;
          rewrite Hloop; reflexivity|].
  split; [exact Hd'|].
  assert (Hkeep : h' !! data = Some buf).
  { rewrite Hother; [exact Hbuf | eauto | congruence]. }
  split; [exact Hkeep|].
  intros pre s post off i Hsplit Hoff Hi Hlast.
  unfold CoffSectionTable.__iter__ in Hsplit. rewrite Hsplit in Hloop, Hwf.
  (* the sections before [s] *)
  assert (Hwf_pre : forall s', s' ∈ pre ->
            CoffSection._data s' = data /\ extent_ok (len buf) s').
  { intros s' Hin. apply Hwf. apply elem_of_app. left. exact Hin. }
  destruct (for_each_copy addr (len d) dst data pre h d buf Hdst eq_refl Hbuf Hwf_pre)
    as (ha & da & bufa & Hpre & Hda & Hlena & _ & _ & _ & Hothera).
  fold body in Hpre.
  assert (Hbufa : ha !! data = Some buf).
  { rewrite Hothera; [exact Hbuf | eauto | congruence]. }
  (* the turn of [s] *)
  assert (Hs : CoffSection._data s = data /\ extent_ok (len buf) s).
  { apply Hwf. apply elem_of_app. right. apply list_elem_of_here. }
  destruct Hs as [Hsd Hext].
  assert (Hlenda : len da = len d) by (unfold len; lia).
  assert (Hbufs : ha !! CoffSection._data s = Some buf) by (rewrite Hsd; exact Hbufa).
  assert (Hoffa : copy_offset addr (addr + len da) s = Some off)
    by (rewrite Hlenda; exact Hoff).
  destruct (copy_sect_copied addr dst s ha da buf off Hda Hbufs Hext Hoffa)
    as (l & Hl & Hstep).
  rewrite Hlenda in Hstep. fold body in Hstep.
  set (db := py_setslice da off (off + CoffSection._dlen s) (section_bytes buf s)) in *.
  set (hb := <[dst := db]> (<[l := section_bytes buf s]> ha)) in *.
  destruct (copy_offset_range _ _ _ _ Hoff) as [Ho1 Ho2].
  pose proof (section_bytes_len buf s Hext) as Hbl.
  pose proof Hext as (Hd0 & Hl0 & Hin0).
  assert (Hdblen : length db = length da) by (apply py_setslice_length; lia).
  assert (Hhbdst : hb !! dst = Some db) by apply lookup_insert_eq.
  assert (Hhbdata : hb !! data = Some buf).
  { unfold hb. rewrite lookup_insert_ne by congruence.
    rewrite lookup_insert_ne by (intros ->; congruence). exact Hbufa. }
  (* the sections after [s] *)
  assert (Hwf_post : forall s', s' ∈ post ->
            CoffSection._data s' = data /\ extent_ok (len buf) s').
  { intros s' Hin. apply Hwf. apply elem_of_app. right.
    apply list_elem_of_further. exact Hin. }
  assert (Hlendb : len db = len d) by (unfold len in *; lia).
  destruct (for_each_copy addr (len d) dst data post hb db buf Hhbdst Hlendb
              Hhbdata Hwf_post)
    as (hc & dc & bufc & Hpost & Hdc & _ & _ & _ & Hframe & _).
  fold body in Hpost.
  (* the three parts compose to the whole loop *)
  rewrite for_each_app, Hpre in Hloop. cbn [for_each] in Hloop.
  unfold bind in Hloop. rewrite Hstep, Hpost in Hloop.
  injection Hloop as <-.
  assert (dc = d') by congruence. subst dc.
  rewrite (Hframe i Hlast).
  unfold db. rewrite py_setslice_lookup_inside by lia.
  rewrite section_bytes_lookup by (try exact Hext; lia).
  f_equal. lia.
Qed.

Lemma copy_sects_placement_witness :
  exists img1 h' d',
    CoffImage.copy_sects (image_of 1%positive img_two) 0x80000 2%positive store_two
    = inr (img1, h') /\
    h' !! 2%positive = Some d' /\
    d' !! 5%nat = img_two !! 151%nat.
Proof.
  assert (Hbuf : store_two !! 1%positive = Some img_two) by reflexivity.
  assert (Hdst : store_two !! 2%positive = Some (replicate 8 xff)) by reflexivity.
  assert (Hne : 2%positive <> 1%positive) by discriminate.
  assert (Hload : CoffImage._load 1%positive store_two
                  = inr (image_of 1%positive img_two, store_two))
    by (vm_compute; reflexivity).
  destruct (CoffImage.sectab (image_of 1%positive img_two) store_two)
    as [e|[[tab img1] h1]] eqn:Hrun; [vm_compute in Hrun; discriminate Hrun|].
  assert (Htab : CoffSectionTable.__iter__ tab = [sect_text] ++ sect_data :: []
                 /\ h1 = store_two).
  { vm_compute in Hrun. injection Hrun as <- _ <-. split; reflexivity. }
  destruct Htab as [Htab ->].
  destruct (copy_sects_placement _ _ _ _ _ _ _ _ 0x80000 Hbuf Hdst Hne Hload Hrun)
    as (h' & d' & Hcopy & Hd' & _ & Hplace).
  exists img1, h', d'. split; [exact Hcopy|]. split; [exact Hd'|].
  rewrite (Hplace [sect_text] sect_data [] 4 5%nat Htab).
  - reflexivity.
  - reflexivity.
  - cbn. lia.
  - intros s' off' Hin. inversion Hin.
Defined.

(** X10: on a constructed image, [copy_sects] raises exactly what
    building the section table raises, and nothing else: once the table
    is built the loop runs to its end, the returned image holds the table,
    and in the store no object disappears and no object other than the
    destination is changed. *)
Theorem copy_sects_store_frame (h : heap) (data dst : loc) (buf d : list byte)
    (img : CoffImage.t) (addr : Z) :
  h !! data = Some buf ->
  h !! dst = Some d ->
  CoffImage._load data h = inr (img, h) ->
  (forall e, CoffImage.sectab img h = inl e ->
             CoffImage.copy_sects img addr dst h = inl e) /\
  (forall tab img1 h1,
     CoffImage.sectab img h = inr ((tab, img1), h1) ->
     exists h',
       CoffImage.copy_sects img addr dst h = inr (img1, h') /\
       CoffImage._sectab img1 = Some tab /\
       (forall l, is_Some (h !! l) -> is_Some (h' !! l)) /\
       (forall l, is_Some (h !! l) -> l <> dst -> h' !! l = h !! l)).
Proof.
  intros Hbuf Hdst Hload.
  destruct (load_ok _ _ _ _ _ Hbuf Hload) as (_ & -> & _).
  rewrite (copy_sects_run _ _ _ _ _ addr Hbuf Hdst).
  rewrite sectab_fresh by reflexivity.
  destruct (CoffImage._load_sect_tab _ h) as [e0|[tab0 h0]] eqn:Htab.
  - split; [intros e [= <-]; reflexivity | intros ? ? ? [=]].
  - split; [intros e [=]|].
    intros tab img1 h1 [= <- <- <-].
    pose proof (image_sections_wf _ _ _ _ _ Hbuf Htab) as Hwf.
    destruct (for_each_copy addr (len d) dst data (CoffSectionTable._sects tab0)
                h d buf Hdst eq_refl Hbuf Hwf)
      as (h' & d' & buf' & Hloop & Hd' & _ & _ & _ & _ & Hother).
    exists h'. rewrite Hloop.
    split; [reflexivity|]. split; [reflexivity|]. split; [|exact Hother].
    intros l Hl. destruct (decide (l = dst)) as [->|Hne]; [eauto|].
    rewrite (Hother l Hl Hne). exact Hl.
Qed.

Lemma copy_sects_store_frame_witness :
  exists img1 h',
    CoffImage.copy_sects (image_of 1%positive img_two) 0x80000 2%positive store_two
    = inr (img1, h') /\
    h' !! 1%positive = Some img_two.
Proof.
  assert (Hbuf : store_two !! 1%positive = Some img_two) by reflexivity.
  assert (Hdst : store_two !! 2%positive = Some (replicate 8 xff)) by reflexivity.
  assert (Hload : CoffImage._load 1%positive store_two
                  = inr (image_of 1%positive img_two, store_two))
    by (vm_compute; reflexivity).
  destruct (copy_sects_store_frame _ _ _ _ _ _ 0x80000 Hbuf Hdst Hload) as [_ Hok].
  destruct (CoffImage.sectab (image_of 1%positive img_two) store_two)
    as [e|[[tab img1] h1]] eqn:Hrun; [vm_compute in Hrun; discriminate Hrun|].
  destruct (Hok _ _ _ eq_refl) as (h' & Hcopy & _ & _ & Hother).
  exists img1, h'. split; [exact Hcopy|].
  rewrite Hother; [exact Hbuf | eauto | discriminate].
Defined.

(** ** [dataops] *)

(** X11: for a non-zero alignment the result of [align] is always a
    multiple of the alignment; but for a positive alignment it is the
    value rounded up (the least multiple of the alignment that is at least
    the value) only when the value is not a multiple of the alignment, or
    is the alignment itself: every other aligned value is replaced by the
    alignment. *)
Theorem align_multiple_not_roundup (value alignment : Z) :
  (alignment <> 0 -> (alignment | dataops.align value alignment)) /\
  (0 < alignment ->
   forall up,
     (alignment | up) -> value <= up ->
     (forall m, (alignment | m) -> value <= m -> up <= m) ->
     (dataops.align value alignment = up <->
      value mod alignment <> 0 \/ value = alignment)).
Proof.
  unfold dataops.align. split.
  - intros Ha. destruct (Z.eqb_spec alignment 0); [lia|].
    destruct (Z.eqb_spec (value mod alignment) 0); [apply Z.divide_refl|].
    pose proof (Z.div_mod value alignment Ha) as Hdm.
    exists (value / alignment + 1). lia.
  - intros Hpos up [k ->] Hge Hleast.
    destruct (Z.eqb_spec alignment 0); [lia|].
    pose proof (Z.div_mod value alignment n) as Hdm.
    pose proof (Z.mod_pos_bound value alignment Hpos) as Hb.
    set (q := value / alignment) in *. set (r := value mod alignment) in *.
    destruct (Z.eqb_spec r 0) as [Hr|Hr].
    + assert (Hup : k * alignment = value).
      { assert (k * alignment <= value); [|lia].
        apply Hleast; [exists q; lia | lia]. }
      split; [intros ?; right; lia | intros [?|?]; lia].
    + split; [intros _; left; exact Hr|]. intros _.
      assert (Hk : q < k) by nia.
      assert (Hle : k * alignment <= (q + 1) * alignment).
      { apply Hleast; [exists (q + 1); lia | lia]. }
      nia.
Qed.

Lemma align_multiple_not_roundup_witness :
  (4 | dataops.align 9 4) /\ dataops.align 9 4 = 12 /\ dataops.align 8 4 <> 8.
Proof.
  destruct (align_multiple_not_roundup 9 4) as [Hmul Hup].
  destruct (align_multiple_not_roundup 8 4) as [_ Hup8].
  split; [apply Hmul; lia|]. split.
  - apply Hup; [lia | exists 3; lia | lia | | left; vm_compute; congruence].
    intros m [k ->] Hm. lia.
  - intros Heq. apply (Hup8 ltac:(lia) 8) in Heq.
    + destruct Heq as [Hm|Hv]; [apply Hm; reflexivity | lia].
    + exists 2. lia.
    + lia.
    + intros m _ Hm. exact Hm.
Defined.

Lemma extend_to_eq (h : heap) (data : loc) (buf : list byte) (dlen pad : Z)
    (out : list Z) :
  h !! data = Some buf ->
  dataops.extend_to data dlen pad out h =
    inr ((data, out ++ [dlen]),
         <[data := padded buf dlen (byte_of (Z.land pad 0xFF))]> h).
Proof.
  intros Hbuf. unfold dataops.extend_to, bind at 1.
  rewrite (read_lookup _ _ _ Hbuf). unfold padded.
  destruct (Z.gtb_spec (dlen - len buf) 0) as [Hpos|Hle].
  - unfold bind, write, ret. rewrite Hbuf. reflexivity.
  - unfold ret. replace (Z.to_nat (dlen - len buf)) with 0%nat by lia.
    cbn [replicate]. rewrite app_nil_r, insert_id by exact Hbuf. reflexivity.
Qed.

Lemma pad_byte_val (pad : Z) : byte_val (byte_of (Z.land pad 0xFF)) = pad mod 256.
Proof.
  change 0xFF with (Z.ones 8). rewrite Z.land_ones by lia.
  change (2 ^ 8) with 256. apply byte_val_byte_of. apply Z.mod_pos_bound. lia.
Qed.

(** X12: [extend_to] on a bytearray prints the requested length and
    returns the same object; afterwards the buffer has
    max(len, dlen) bytes, starts with its old contents, and every byte
    after them is pad mod 256; when dlen is not larger than the length the
    store is left exactly as it was; no other object changes. *)
Theorem extend_to_pads (h : heap) (data : loc) (buf : list byte) (dlen pad : Z)
    (out : list Z) :
  h !! data = Some buf ->
  exists (h' : heap) (buf' : list byte),
    dataops.extend_to data dlen pad out h = inr ((data, out ++ [dlen]), h') /\
    h' !! data = Some buf' /\
    len buf' = Z.max (len buf) dlen /\
    take (length buf) buf' = buf /\
    (forall (i : nat) b, (length buf <= i)%nat -> buf' !! i = Some b ->
                         byte_val b = pad mod 256) /\
    (dlen <= len buf -> h' = h) /\
    (forall l, l <> data -> h' !! l = h !! l).
Proof.
  intros Hbuf. rewrite (extend_to_eq _ _ _ _ _ _ Hbuf).
  eexists _, _. split; [reflexivity|].
  split; [apply lookup_insert_eq|]. unfold padded.
  split; [unfold len; rewrite length_app, length_replicate; unfold len; lia|].
  split; [apply take_app_length|]. split; [|split].
  - intros i b Hi Hb. rewrite lookup_app_r in Hb by exact Hi.
    apply lookup_replicate in Hb as [-> _]. apply pad_byte_val.
  - intros Hle. replace (Z.to_nat (dlen - len buf)) with 0%nat by lia.
    cbn [replicate]. rewrite app_nil_r. apply insert_id. exact Hbuf.
  - intros l Hl. apply lookup_insert_ne. congruence.
Qed.

Lemma extend_to_pads_witness :
  exists h',
    dataops.extend_to 1%positive 6 0x1FF [] store_four
    = inr ((1%positive, [6]), h') /\
    h' !! 1%positive = Some [x01; x02; x03; x04; xff; xff].
Proof.
  assert (Hbuf : store_four !! 1%positive = Some [x01; x02; x03; x04]) by reflexivity.
  destruct (extend_to_pads store_four 1%positive _ 6 0x1FF [] Hbuf)
    as (h' & buf' & Hrun & Hbuf' & _).
  exists h'. split; [exact Hrun|].
  vm_compute in Hrun. injection Hrun as <-. reflexivity.
Defined.

(** X13: extending twice with the same pad is extending once to the
    larger of the two lengths; in particular a second call with the same
    length changes nothing. *)
Theorem extend_to_twice (h : heap) (data : loc) (buf : list byte) (n m pad : Z)
    (out : list Z) :
  h !! data = Some buf ->
  exists h1 h2,
    dataops.extend_to data n pad out h = inr ((data, out ++ [n]), h1) /\
    dataops.extend_to data m pad (out ++ [n]) h1
    = inr ((data, out ++ [n] ++ [m]), h2) /\
    (exists o, dataops.extend_to data (Z.max n m) pad out h = inr (o, h2)) /\
    (m <= n -> h2 = h1).
Proof.
  intros Hbuf. set (p := byte_of (Z.land pad 0xFF)).
  assert (Hb1 : <[data := padded buf n p]> h !! data = Some (padded buf n p))
    by apply lookup_insert_eq.
  assert (Hlen : len (padded buf n p) = Z.max (len buf) n).
  { unfold padded, len. rewrite length_app, length_replicate. lia. }
  assert (Hcomp : padded (padded buf n p) m p = padded buf (Z.max n m) p).
  { unfold padded at 1. rewrite Hlen. unfold padded.
    rewrite <- app_assoc, <- replicate_add. do 2 f_equal.
    pose proof (len_nonneg buf). lia. }
  exists (<[data := padded buf n p]> h), (<[data := padded buf (Z.max n m) p]> h).
  rewrite (extend_to_eq _ _ _ _ _ _ Hbuf), (extend_to_eq _ _ _ _ _ _ Hb1).
  rewrite (extend_to_eq _ _ _ _ _ _ Hbuf). fold p.
  rewrite insert_insert_eq, Hcomp, <- app_assoc.
  split; [reflexivity|]. split; [reflexivity|]. split; [eexists; reflexivity|].
  intros Hmn. rewrite Z.max_l by lia. reflexivity.
Qed.

Lemma extend_to_twice_witness :
  exists h1,
    dataops.extend_to 1%positive 6 0 [] store_four = inr ((1%positive, [6]), h1) /\
    dataops.extend_to 1%positive 5 0 [6] h1 = inr ((1%positive, [6; 5]), h1).
Proof.
  assert (Hbuf : store_four !! 1%positive = Some [x01; x02; x03; x04]) by reflexivity.
  destruct (extend_to_twice store_four 1%positive _ 6 5 0 [] Hbuf)
    as (h1 & h2 & Hfirst & Hsecond & _ & Hsame).
  exists h1. split; [exact Hfirst|].
  rewrite <- (Hsame ltac:(lia)) at 2. exact Hsecond.
Defined.

(** ** [from_file] and the allocated predicate *)

(** X14: an image loaded from a file owns a buffer of its own: the bytes
    read are placed in a new object that no existing reference points to,
    every existing object is left as it was, and the image has no table
    yet; and whether loading fails, and with which error, depends on the
    bytes of the file alone, not on the store. *)
Theorem from_file_fresh_buffer (contents : list byte) (h : heap) :
  (forall img h',
     CoffImage.from_file contents h = inr (img, h') ->
     h !! CoffImage._data img = None /\
     h' = <[CoffImage._data img := contents]> h /\
     (forall l, is_Some (h !! l) -> h' !! l = h !! l) /\
     CoffImage._sectab img = None) /\
  (forall e,
     CoffImage.from_file contents h = inl e <->
     CoffImage._load 1%positive {[1%positive := contents]} = inl e).
Proof.
  unfold CoffImage.from_file, bind, alloc.
  set (l := fresh (dom h)).
  assert (Hfresh : h !! l = None) by (apply not_elem_of_dom, is_fresh).
  assert (Hl : <[l := contents]> h !! l = Some contents) by apply lookup_insert_eq.
  assert (H1 : ({[1%positive := contents]} : heap) !! 1%positive = Some contents)
    by apply lookup_singleton_eq.
  rewrite (load_chain _ _ _ Hl), (load_chain _ _ _ H1).
  split.
  - intros img h' Hrun.
    repeat (match type of Hrun with
            | (if ?c then _ else _) = _ => destruct c; [discriminate Hrun|]
            end).
    injection Hrun as <- <-. cbn.
    split; [exact Hfresh|]. split; [reflexivity|]. split; [|reflexivity].
    intros l0 [x Hx]. apply lookup_insert_ne. intros <-. congruence.
  - intros e.
    repeat (match goal with
            | |- context [if ?c then _ else _] => destruct c; [reflexivity|]
            end).
    split; discriminate.
Qed.

Lemma from_file_fresh_buffer_witness :
  exists img h',
    CoffImage.from_file img_two store_four = inr (img, h') /\
    store_four !! CoffImage._data img = None /\
    h' !! 1%positive = store_four !! 1%positive.
Proof.
  destruct (from_file_fresh_buffer img_two store_four) as [Hok _].
  destruct (CoffImage.from_file img_two store_four) as [e|[img h']] eqn:Hrun;
    [vm_compute in Hrun; discriminate Hrun|].
  destruct (Hok _ _ eq_refl) as (Hnew & _ & Hkeep & _).
  exists img, h'. split; [reflexivity|]. split; [exact Hnew|].
  apply Hkeep. eexists. reflexivity.
Defined.

(** X15: the allocated predicate looks at the bits 0x20, 0x40 and 0x80
    only: it holds exactly when one of them is set, so each of TEXT, DATA
    and BSS alone makes a section allocated, clearing the three bits
    makes it not allocated whatever else is set, and a union of flag sets
    is allocated exactly when one of them is. *)
Theorem is_allocated_mask_only (flags other : Z) :
  (CoffSectionFlags.is_allocated flags = true <->
   Z.testbit flags 5 = true \/ Z.testbit flags 6 = true \/ Z.testbit flags 7 = true) /\
  CoffSectionFlags.is_allocated CoffSectionFlags.TEXT = true /\
  CoffSectionFlags.is_allocated CoffSectionFlags.DATA = true /\
  CoffSectionFlags.is_allocated CoffSectionFlags.BSS = true /\
  CoffSectionFlags.is_allocated (Z.ldiff flags CoffSectionFlags.ALLOC_MASK) = false /\
  CoffSectionFlags.is_allocated (Z.lor flags other)
  = CoffSectionFlags.is_allocated flags || CoffSectionFlags.is_allocated other.
Proof.
  split; [|split; [|split; [|split; [|split]]]]; try reflexivity.
  - rewrite is_allocated_bits.
    destruct (Z.testbit flags 5), (Z.testbit flags 6), (Z.testbit flags 7);
      cbn; intuition congruence.
  - rewrite is_allocated_bits, !Z.ldiff_spec.
    change (Z.testbit CoffSectionFlags.ALLOC_MASK 5) with true.
    change (Z.testbit CoffSectionFlags.ALLOC_MASK 6) with true.
    change (Z.testbit CoffSectionFlags.ALLOC_MASK 7) with true.
    cbn [negb]. rewrite !andb_false_r. reflexivity.
  - rewrite !is_allocated_bits, !Z.lor_spec.
    destruct (Z.testbit flags 5), (Z.testbit flags 6), (Z.testbit flags 7),
      (Z.testbit other 5), (Z.testbit other 6), (Z.testbit other 7); reflexivity.
Qed.

(** ** Constructing one section *)


